(** * Configuration loading in netlify-cms-core

    A shallow embedding of [packages/netlify-cms-core/src/actions/config.js]:
    [applyDefaults], [addLanguageFields], [mergePreloadedConfig],
    [parseConfig], [getConfig] and [loadConfig], together with the part of
    the JavaScript, lodash and Immutable (3.x) semantics these functions
    rely on.

    What config.js imports from the rest of the repository
    ([publishModes.SIMPLE], [selectIdentifier], [validateConfig], the store
    and its reducer, [authenticateUser]) and the YAML parser are parameters
    of the embedding; the configuration slot of the store is also given
    as the spec describes it.  Library behaviour that the type of
    documents cannot express is marked by the outcome [Beyond]; every
    statement below is about runs that return or throw.

    Layout: the data model and the library operations come first, then the
    functions of config.js, then the properties proved about them. *)

From Stdlib Require Import String Ascii List ZArith Bool Lia DecimalString.
Import ListNotations.
Local Open Scope string_scope.
Local Open Scope list_scope.

(* ================================================================= *)
(** ** Values *)

(** Configuration documents are JSON-like trees.  The same type stands for
    plain JavaScript data and for its Immutable counterpart ([fromJS] turns
    arrays into Lists and objects into Maps, [toJS] goes back), so both
    conversions are the identity on it.  An object is the list of its own
    properties in property order, which [Object.keys] in [parseConfig]
    depends on; keys are unique in every object that a parser or [fromJS]
    builds.  Numbers are the integers. *)
Unset Elimination Schemes.
Inductive value : Type :=
| VUndef
| VNull
| VBool (b : bool)
| VNum (n : Z)
| VStr (s : string)
| VList (items : list value)
| VObj (entries : list (string * value)).
Set Elimination Schemes.

Definition obj : Type := list (string * value).

(** Exceptions that the modelled code can raise. *)
Inductive error : Type :=
| TypeError (what : string)       (* property or method of a non-object *)
| LoadError (message : string)    (* [new Error(`Failed to load config.yml (...)`)] *)
| InvalidKeyPath                  (* Immutable's [invariant(..., 'invalid keyPath')] *)
| External (message : string).    (* raised by code outside config.js *)

(** The result of running a piece of code: a value, a JavaScript
    exception, or [Beyond] when the run leaves the fragment of the library
    semantics that is modelled here (a List that takes the entries of a
    Map, printing a collection, built-in property names, ...).  Nothing
    is claimed about a run that is [Beyond]. *)
Inductive outcome (A : Type) : Type :=
| Ok (a : A)
| Throw (e : error)
| Beyond.

Arguments Ok {A} a.
Arguments Throw {A} e.
Arguments Beyond {A}.

Definition bind {A B : Type} (m : outcome A) (k : A -> outcome B) : outcome B :=
  match m with
  | Ok a => k a
  | Throw e => Throw e
  | Beyond => Beyond
  end.

Notation "x <- m ;; k" := (bind m (fun x => k))
  (at level 61, m at next level, right associativity).

Fixpoint mapM {A B : Type} (f : A -> outcome B) (l : list A) : outcome (list B) :=
  match l with
  | [] => Ok []
  | a :: l' => b <- f a ;; bs <- mapM f l' ;; Ok (b :: bs)
  end.

(* ================================================================= *)
(** ** JavaScript and lodash helpers *)

Module Js.

(** [!!v] *)
Definition truthy (v : value) : bool :=
  match v with
  | VUndef | VNull => false
  | VBool b => b
  | VNum n => negb (n =? 0)%Z
  | VStr s => negb (s =? "")
  | VList _ | VObj _ => true
  end.

Definition isCollection (v : value) : bool :=
  match v with
  | VList _ | VObj _ => true
  | _ => false
  end.

(** Own property lookup; the first binding of a key is the property. *)
Fixpoint lookup (k : string) (m : obj) : option value :=
  match m with
  | [] => None
  | (k', v) :: m' => if k =? k' then Some v else lookup k m'
  end.

Definition has (k : string) (m : obj) : bool :=
  match lookup k m with
  | Some _ => true
  | None => false
  end.

(** [m.get(k)] on a Map, [o[k]] on an own or missing property. *)
Definition get (k : string) (m : obj) : value :=
  match lookup k m with
  | Some v => v
  | None => VUndef
  end.

(** [o[k] = v], [{...o, k: v}] and [m.set(k, v)]: an existing property
    keeps its place, a new one goes last. *)
Fixpoint set (k : string) (v : value) (m : obj) : obj :=
  match m with
  | [] => [(k, v)]
  | (k', v') :: m' => if k =? k' then (k, v) :: m' else (k', v') :: set k v m'
  end.

(** lodash [omit(o, k)] *)
Definition omit (k : string) (m : obj) : obj :=
  filter (fun kv => negb (fst kv =? k)) m.

Definition keys (m : obj) : list string := map fst m.

(** Names that every plain object inherits from [Object.prototype]. *)
Definition objectPrototypeNames : list string :=
  [ "constructor"; "__defineGetter__"; "__defineSetter__"; "hasOwnProperty";
    "__lookupGetter__"; "__lookupSetter__"; "isPrototypeOf";
    "propertyIsEnumerable"; "toString"; "valueOf"; "__proto__";
    "toLocaleString" ].

Definition inherited (k : string) : bool :=
  existsb (String.eqb k) objectPrototypeNames.

(** [v[k]] for an arbitrary key.  Reading through [undefined] or [null]
    is a TypeError; an inherited name yields a built-in, which [value]
    cannot express, and so do the properties of primitives and arrays. *)
Definition getProp (v : value) (k : string) : outcome value :=
  match v with
  | VUndef | VNull => Throw (TypeError ("Cannot read property " ++ k))
  | VObj m =>
      match lookup k m with
      | Some x => Ok x
      | None => if inherited k then Beyond else Ok VUndef
      end
  | _ => Beyond
  end.

(** [o[k] = v] on a plain object; assigning [__proto__] changes the
    prototype instead of adding a property. *)
Definition setProp (m : obj) (k : string) (v : value) : outcome obj :=
  if k =? "__proto__" then Beyond else Ok (set k v m).

(** [Object.keys(v)] for a truthy [v]. *)
Definition ownKeys (v : value) : outcome (list string) :=
  match v with
  | VObj m => Ok (keys m)
  | VBool _ | VNum _ => Ok []
  | VStr _ | VList _ => Beyond            (* index keys *)
  | VUndef | VNull => Throw (TypeError "Cannot convert undefined or null to object")
  end.

(** [item.name] and [item.translate]: neither name is built in, so the
    property is undefined on everything but an object that owns it. *)
Definition field (k : string) (item : value) : outcome value :=
  match item with
  | VUndef | VNull => Throw (TypeError ("Cannot read property " ++ k))
  | VObj m => Ok (get k m)
  | _ => Ok VUndef
  end.

(** [name !== s] where [s] is a string or undefined. *)
Definition strictNeq (name : value) (s : option string) : bool :=
  match name, s with
  | VStr n, Some s' => negb (n =? s')
  | VUndef, None => false
  | _, _ => true
  end.

(** [String(n)].  A JavaScript number is a double: an integer up to 2^53
    in size is held exactly and prints as its decimal digits; beyond
    that a double rounds, and prints the shortest digits that read back. *)
Definition numberToString (n : Z) : outcome string :=
  if (Z.abs n <=? 2 ^ 53)%Z
  then Ok (NilZero.string_of_int (Z.to_int n))
  else Beyond.

Definition natToString (n : nat) : string :=
  NilZero.string_of_uint (Nat.to_uint n).

(** lodash [toString]; a collection prints through Immutable's own
    [toString], which is not modelled. *)
Definition toString (v : value) : outcome string :=
  match v with
  | VUndef | VNull => Ok ""
  | VBool true => Ok "true"
  | VBool false => Ok "false"
  | VNum n => numberToString n
  | VStr s => Ok s
  | VList _ | VObj _ => Beyond
  end.

(** Drop every leading ["/"]. *)
Fixpoint stripSlashes (s : string) : string :=
  match s with
  | String c s' => if Ascii.eqb c "/" then stripSlashes s' else s
  | EmptyString => EmptyString
  end.

(** lodash [trimStart(v, '/')] *)
Definition trimStart (v : value) : outcome string :=
  s <- toString v ;; Ok (stripSlashes s).

Definition isAscii (c : ascii) : bool := Nat.ltb (nat_of_ascii c) 128.

Definition upperChar (c : ascii) : ascii :=
  let n := nat_of_ascii c in
  if Nat.leb 97 n && Nat.leb n 122 then ascii_of_nat (n - 32) else c.

Fixpoint allAscii (s : string) : bool :=
  match s with
  | String c s' => isAscii c && allAscii s'
  | EmptyString => true
  end.

Fixpoint upperString (s : string) : string :=
  match s with
  | String c s' => String (upperChar c) (upperString s')
  | EmptyString => EmptyString
  end.

(** [lang.toUpperCase()]: a method of strings only.  Upper-casing is
    modelled on ASCII text. *)
Definition toUpperCase (lang : value) : outcome string :=
  match lang with
  | VStr s => if allAscii s then Ok (upperString s) else Beyond
  | _ => Throw (TypeError "toUpperCase is not a function")
  end.

(** [s.indexOf(sub) !== -1] *)
Fixpoint includes (sub s : string) : bool :=
  String.prefix sub s ||
  match s with
  | String _ s' => includes sub s'
  | EmptyString => false
  end.

(** [v.toJS()]: a method of Immutable collections only. *)
Definition toJS (v : value) : outcome value :=
  match v with
  | VList _ | VObj _ => Ok v
  | _ => Throw (TypeError "toJS is not a function")
  end.

End Js.

(* ================================================================= *)
(** ** Immutable collections *)

Module Immutable.
Import Js.

(** [wrapIndex] of Immutable 3.8 on a string key: the key addresses an
    item of a List only if it is an array index, the decimal print of an
    integer below 2^32 - 1.  Every other key is NaN to a List. *)
Definition arrayIndex (k : string) : option N :=
  match NilZero.uint_of_string k with
  | Some u =>
      let n := N.of_uint u in
      if (NilZero.string_of_uint (N.to_uint n) =? k) && (n <? 2 ^ 32 - 1)%N
      then Some n
      else None
  | None => None
  end.

(** [l.get(k, NOT_SET)] on a List: [None] stands for NOT_SET, which a
    key that is no index and an index past the end give. *)
Definition listGet (k : string) (l : list value) : option value :=
  match arrayIndex k with
  | Some i => nth_error l (N.to_nat i)
  | None => None
  end.

(** The List with [x] at index [i]; an index past the end makes the
    List longer, and the items in between read undefined. *)
Fixpoint replaceAt (i : nat) (x : value) (l : list value) : list value :=
  match l, i with
  | [], _ => repeat VUndef i ++ [x]
  | _ :: l', O => x :: l'
  | y :: l', S i' => y :: replaceAt i' x l'
  end.

(** [l.set(k, x)] on a List: a key that is no index leaves the List as
    it is.  The trie of a List has no room for an index from 2^30 on. *)
Definition listSet (k : string) (x : value) (l : list value) : outcome (list value) :=
  match arrayIndex k with
  | Some i => if (i <? 2 ^ 30)%N then Ok (replaceAt (N.to_nat i) x l) else Beyond
  | None => Ok l
  end.

Definition isEmpty (m : obj) : bool :=
  match m with
  | [] => true
  | _ :: _ => false
  end.

(** [mergeIntoMapWith] and [mergeIntoListWith] of Immutable 3: the
    entries of the incoming collection are visited in order; an entry
    whose key (or index) is taken is combined with the present value by
    [merger], a fresh one is added. *)
Section MergeWith.
Variable merger : value -> value -> outcome value.

Fixpoint mergeIntoMap (incoming : obj) (m : obj) {struct incoming}
  : outcome obj :=
  match incoming with
  | [] => Ok m
  | (k, v) :: rest =>
      match lookup k m with
      | Some existing =>
          r <- merger existing v ;; mergeIntoMap rest (set k r m)
      | None => mergeIntoMap rest (set k v m)
      end
  end.

Fixpoint mergeIntoList (incoming : list value) (l : list value)
  {struct incoming} : outcome (list value) :=
  match incoming, l with
  | [], _ => Ok l
  | _, [] => Ok incoming
  | v :: rest, existing :: l' =>
      r <- merger existing v ;;
      rs <- mergeIntoList rest l' ;;
      Ok (r :: rs)
  end.

(** A List that is merged into a Map is read as a sequence of entries
    ([fromEntrySeq]): a falsy item is passed over, an item that is a
    List stands for the entry of its first two items, and any other
    primitive is a TypeError ('Expected [K, V] tuple').  The key of an
    entry has to be a string to be a key of a document; an item that is a
    Map has the key undefined.  An entry without a second item carries
    undefined, which the deep merger hands on whatever was there.  Into
    an empty Map ([fresh]) the entries are set one after the other, as
    [Map(entries)] does; otherwise an entry whose key is taken is
    combined with the present value by [merger]. *)
Fixpoint mergeEntriesIntoMap (fresh : bool) (incoming : list value) (m : obj)
  {struct incoming} : outcome obj :=
  match incoming with
  | [] => Ok m
  | item :: rest =>
      if negb (truthy item) then mergeEntriesIntoMap fresh rest m
      else
        match item with
        | VList (VStr k :: tail) =>
            match (if fresh then None else lookup k m), tail with
            | Some existing, v :: _ =>
                r <- merger existing v ;; mergeEntriesIntoMap fresh rest (set k r m)
            | None, v :: _ => mergeEntriesIntoMap fresh rest (set k v m)
            | _, [] => mergeEntriesIntoMap fresh rest (set k VUndef m)
            end
        | VList _ | VObj _ => Beyond
        | _ => Throw (TypeError "Expected [K, V] tuple")
        end
  end.
End MergeWith.

(** [deepMerger(existing, value)]: when both are collections,
    [existing.mergeDeep(value)]; anything else is replaced by the incoming
    value.  Two Maps are merged key by key and two Lists index by index.
    A List that comes upon a Map is read as the entries of a Map.  A Map
    that comes upon a List leaves the List as it is when the Map is
    empty; otherwise its entries take the place of the first items of
    the List, each as a plain JavaScript array [[key, value]] that
    [fromJS] has not seen, and a List that holds plain arrays is not a
    document. *)
Fixpoint deepMerger (existing incoming : value) {struct incoming}
  : outcome value :=
  match existing, incoming with
  | VObj m, VObj n => r <- mergeIntoMap deepMerger n m ;; Ok (VObj r)
  | VList l, VList n => r <- mergeIntoList deepMerger n l ;; Ok (VList r)
  | VObj m, VList n =>
      r <- mergeEntriesIntoMap deepMerger (isEmpty m) n m ;; Ok (VObj r)
  | VList l, VObj [] => Ok existing
  | VList _, VObj (_ :: _) => Beyond
  | _, _ => Ok incoming
  end.

(** [m.mergeDeep(other)] on a Map [m].  The argument is turned into a
    keyed sequence: a Map gives its entries, a List is read as entries,
    [undefined] and [null] give none, a string gives its characters, none
    of which is an entry, and a number or a boolean is refused. *)
Definition mergeDeep (m : obj) (other : value) : outcome obj :=
  match other with
  | VObj n => mergeIntoMap deepMerger n m
  | VList n => mergeEntriesIntoMap deepMerger (isEmpty m) n m
  | VUndef | VNull | VStr EmptyString => Ok m
  | VStr (String _ _) => Throw (TypeError "Expected [K, V] tuple")
  | VBool _ | VNum _ =>
      Throw (TypeError "Expected Array or iterable object of [k, v] entries, or keyed object")
  end.

(** [m.getIn(path)]: a missing key, a key that is no index of a List, or
    a value on the way that is not a collection gives undefined. *)
Fixpoint getIn (path : list string) (v : value) : outcome value :=
  match path with
  | [] => Ok v
  | k :: rest =>
      match v with
      | VObj m =>
          match lookup k m with
          | Some x => getIn rest x
          | None => Ok VUndef
          end
      | VList l =>
          match listGet k l with
          | Some x => getIn rest x
          | None => Ok VUndef
          end
      | _ => Ok VUndef
      end
  end.

(** [updateInDeepMap] specialised to [setIn]: [existing] is [None] for
    NOT_SET.  A step through something that is present but is not a
    collection trips the 'invalid keyPath' invariant.  A step through a
    List whose key is no index builds the new value and then leaves the
    List as it is, since [List.set] ignores the key. *)
Fixpoint setIn (path : list string) (x : value) (existing : option value)
  : outcome value :=
  match path with
  | [] => Ok x
  | k :: rest =>
      match existing with
      | None => r <- setIn rest x None ;; Ok (VObj [(k, r)])
      | Some (VObj m) => r <- setIn rest x (lookup k m) ;; Ok (VObj (set k r m))
      | Some (VList l) =>
          r <- setIn rest x (listGet k l) ;;
          l' <- listSet k r l ;;
          Ok (VList l')
      | Some _ => Throw InvalidKeyPath
      end
  end.

(** [m.map(f)] on a Map: the values are mapped in the order of the
    entries and keep their keys. *)
Fixpoint mapValues (f : value -> outcome value) (m : obj) : outcome obj :=
  match m with
  | [] => Ok []
  | (k, v) :: m' => r <- f v ;; rs <- mapValues f m' ;; Ok ((k, r) :: rs)
  end.

(** [m.setIn([k, ...rest], x)] on a Map [m]. *)
Definition setInMap (k : string) (rest : list string) (x : value) (m : obj)
  : outcome obj :=
  r <- setIn rest x (lookup k m) ;; Ok (set k r m).

End Immutable.

(* ================================================================= *)
(** ** Actions and the page *)

(** The action objects of config.js.  [CONFIG_FAILURE] also carries the
    constant [error: 'Error loading config'].  [Foreign] stands for the
    actions of other modules. *)
Inductive action : Type :=
| CONFIG_REQUEST
| CONFIG_SUCCESS (payload : value)
| CONFIG_FAILURE (payload : error)
| CONFIG_MERGE (payload : value)
| Foreign (type : string).

Definition configLoaded (config : value) : action := CONFIG_SUCCESS config.
Definition configLoading : action := CONFIG_REQUEST.
Definition configFailed (err : error) : action := CONFIG_FAILURE err.
Definition mergeConfig (config : value) : action := CONFIG_MERGE config.

(** What [fetch(file).catch(err => err)] resolves to: the Error of a
    failed transport (with its print), or a response. *)
Inductive fetched : Type :=
| Rejected (print : string)
| Response (status : nat) (contentType : option string) (body : string).

(** The [link] element found by [document.querySelector]. *)
Record linkElement : Type := {
  linkType : string;
  href : string
}.

(** The globals that config.js reads.  [CMS_CONFIG] is [VUndef] when the
    host injected nothing; [CMS_ENV] is [None] unless
    [typeof CMS_ENV === 'string']. *)
Record page : Type := {
  CMS_CONFIG : value;
  CMS_ENV : option string;
  configLinkEl : option linkElement;
  fetch : string -> fetched
}.

(* ================================================================= *)
(** ** config.js *)

Section Config.
Import Js Immutable.

(** Code of the repository that config.js imports and that lies outside
    it: the constant [publishModes.SIMPLE], [selectIdentifier] of
    Reducers/collections, [validateConfig] of Constants/configSchema,
    the store with its reducer, and [authenticateUser] of Actions/auth
    (the actions it dispatches before it returns or throws). The YAML
    parser [yaml.safeLoad] is a parameter as well. *)
Variable SIMPLE : string.
Variable selectIdentifier : obj -> outcome (option string).
Variable safeLoad : string -> outcome value.
Variable validateConfig : value -> outcome unit.
Variable State : Type.
Variable reducer : State -> action -> State.
Variable selectConfig : State -> option obj.
Variable authenticateUser : State -> list action * outcome unit.

Definition getConfigUrl (g : page) : string :=
  let validTypes := ["text/yaml"; "application/x-yaml"] in
  match configLinkEl g with
  | Some el =>
      if (existsb (String.eqb (linkType el)) validTypes || inherited (linkType el))
         && negb (href el =? "")
      then href el
      else "config.yml"
  | None => "config.yml"
  end.

Definition defaults : obj := [("publish_mode", VStr SIMPLE)].

(** The body of the [langs.map] callback. *)
Definition langField (item : obj) (lang : value) : outcome value :=
  label <- toUpperCase lang ;;
  Ok (VObj (set "name" lang (set "label" (VStr label) (omit "translate" item)))).

(** The body of the [fields.reduce] callback.  Only an object can own a
    truthy [translate]. *)
Definition addLanguageField (langs : value) (identifier : option string)
  (acc : list value) (item : value) : outcome (list value) :=
  name <- field "name" item ;;
  match item with
  | VObj o =>
      if truthy (get "translate" o)
         && strictNeq name identifier && strictNeq name (Some "body")
      then
        match langs with
        | VList ls =>
            langFields <- mapM (langField o) ls ;;
            let newField :=
              set "fields" (VList langFields)
                (set "widget" (VStr "object") (omit "translate" o)) in
            Ok (acc ++ [VObj newField])
        | _ => Throw (TypeError "langs.map is not a function")
        end
      else Ok (acc ++ [item])
  | _ => Ok (acc ++ [item])
  end.

Fixpoint reduce {A B : Type} (f : B -> A -> outcome B) (l : list A) (acc : B)
  : outcome B :=
  match l with
  | [] => Ok acc
  | a :: l' => acc' <- f acc a ;; reduce f l' acc'
  end.

Definition addLanguageFields (fields langs : value) (identifier : option string)
  : outcome (list value) :=
  match fields with
  | VList items => reduce (addLanguageField langs identifier) items []
  | _ => Throw (TypeError "fields.reduce is not a function")
  end.

(** The callback of [files.map].  On a file that is a List, [get] finds
    nothing under ['file'] and [set] ignores the key. *)
Definition fileDefaults (file : value) : outcome value :=
  match file with
  | VObj f => s <- trimStart (get "file" f) ;; Ok (VObj (set "file" (VStr s) f))
  | VList l =>
      s <- trimStart (match listGet "file" l with Some x => x | None => VUndef end) ;;
      l' <- listSet "file" (VStr s) l ;;
      Ok (VList l')
  | _ => Throw (TypeError "file.get is not a function")
  end.

(** The callback of [map.get('collections').map].  A collection that is
    a List has nothing under ['folder'] or ['files'], so the callback
    returns nothing for it. *)
Definition collectionDefaults (langs : value) (collection : value) : outcome value :=
  match collection with
  | VObj c =>
      let folder := get "folder" c in
      if truthy folder then
        let c1 :=
          if has "path" c && negb (has "media_folder" c)
          then set "media_folder" (VStr "") c
          else c in
        let fields := get "fields" c1 in
        c2 <- (if truthy langs && truthy fields then
                 fieldsJS <- toJS fields ;;
                 langsJS <- toJS langs ;;
                 identifier <- selectIdentifier c1 ;;
                 expanded <- addLanguageFields fieldsJS langsJS identifier ;;
                 Ok (set "fields" (VList expanded) c1)
               else Ok c1) ;;
        s <- trimStart folder ;;
        Ok (VObj (set "folder" (VStr s) c2))
      else
        let files := get "files" c in
        if truthy files then
          match files with
          | VList fs => fs' <- mapM fileDefaults fs ;; Ok (VObj (set "files" (VList fs') c))
          | VObj fs => fs' <- mapValues fileDefaults fs ;; Ok (VObj (set "files" (VObj fs') c))
          | _ => Throw (TypeError "files.map is not a function")
          end
        else Ok VUndef
  | VList _ => Ok VUndef      (* neither 'folder' nor 'files' is an index *)
  | _ => Throw (TypeError "collection.get is not a function")
  end.

(** One default of the slug configuration. *)
Definition slugDefault (key : string) (dflt : value) (map : obj) : outcome obj :=
  present <- getIn ["slug"; key] (VObj map) ;;
  if negb (truthy present) then setInMap "slug" [key] dflt map else Ok map.

Definition applyDefaults (config : obj) : outcome obj :=
  map <- mergeDeep defaults (VObj config) ;;
  let map :=
    if negb (truthy (get "display_url" map)) && truthy (get "site_url" map)
    then set "display_url" (get "site_url" map) map
    else map in
  trimmed <- trimStart (get "media_folder" map) ;;
  let defaultPublicFolder := ("/" ++ trimmed)%string in
  let map :=
    if negb (truthy (get "public_folder" map))
    then set "public_folder" (VStr defaultPublicFolder) map
    else map in
  map <- slugDefault "encoding" (VStr "unicode") map ;;
  map <- slugDefault "clean_accents" (VBool false) map ;;
  map <- slugDefault "sanitize_replacement" (VStr "-") map ;;
  let langs := get "languages" map in
  collections <-
    match get "collections" map with
    | VList cs => cs' <- mapM (collectionDefaults langs) cs ;; Ok (VList cs')
    | VObj cs => cs' <- mapValues (collectionDefaults langs) cs ;; Ok (VObj cs')
    | _ => Throw (TypeError "Cannot read property map")
    end ;;
  Ok (set "collections" collections map).

Definition mergePreloadedConfig (preloadedConfig : option obj) (loadedConfig : value)
  : outcome value :=
  let map := if truthy loadedConfig then loadedConfig else VObj [] in
  match preloadedConfig with
  | Some pre => r <- mergeDeep pre map ;; Ok (VObj r)
  | None => Ok map
  end.

(** The [forEach] of [parseConfig].  The overlay is read again through
    the document at every key, as the source does. *)
Fixpoint hoist (env : string) (ks : list string) (config : obj) : outcome obj :=
  match ks with
  | [] => Ok config
  | key :: ks' =>
      overlay <- getProp (VObj config) env ;;
      v <- getProp overlay key ;;
      config' <- setProp config key v ;;
      hoist env ks' config'
  end.

Definition parseConfig (g : page) (data : string) : outcome value :=
  config <- safeLoad data ;;
  match CMS_ENV g with
  | Some env =>
      match config with
      | VObj c =>
          overlay <- getProp config env ;;
          if truthy overlay then
            ks <- ownKeys overlay ;;
            c' <- hoist env ks c ;;
            Ok (VObj c')
          else Ok config
      | _ =>
          (* [config[CMS_ENV]] on a document that is not an object: a
             TypeError on undefined and null *)
          _ <- getProp config env ;; Beyond
      end
  | None => Ok config
  end.

Definition loadErrorMessage (detail : string) : string :=
  "Failed to load config.yml (" ++ detail ++ ")".

Definition getConfig (g : page) (file : string) (isPreloaded : bool) : outcome value :=
  match fetch g file with
  | Rejected print =>
      if isPreloaded then parseConfig g ""
      else Throw (LoadError (loadErrorMessage print))
  | Response status contentType body =>
      if negb (Nat.eqb status 200) then
        if isPreloaded then parseConfig g ""
        else Throw (LoadError (loadErrorMessage
               (if Nat.eqb status 0 then "[object Response]" else natToString status)))
      else
        let contentType :=
          match contentType with
          | Some t => if t =? "" then "Not-Found" else t
          | None => "Not-Found"
          end in
        let isYaml := includes "yaml" contentType in
        if negb isYaml && isPreloaded then parseConfig g ""
        else parseConfig g body
  end.

(** *** The store and thunks *)

(** A store is its state and the actions dispatched so far. *)
Definition store : Type := (State * list action)%type.

(** Code that runs against the store: it may dispatch, read the state,
    and return or throw. *)
Definition thunk (A : Type) : Type := store -> store * outcome A.

Definition ret {A : Type} (a : A) : thunk A := fun st => (st, Ok a).
Definition throw {A : Type} (err : error) : thunk A := fun st => (st, Throw err).
Definition lift {A : Type} (r : outcome A) : thunk A := fun st => (st, r).

Definition andThen {A B : Type} (t : thunk A) (k : A -> thunk B) : thunk B :=
  fun st =>
    match t st with
    | (st', Ok a) => k a st'
    | (st', Throw err) => (st', Throw err)
    | (st', Beyond) => (st', Beyond)
    end.

Notation "x <~ t ;; k" := (andThen t (fun x => k))
  (at level 61, t at next level, right associativity).

Definition tryCatch {A : Type} (body : thunk A) (handler : error -> thunk A) : thunk A :=
  fun st =>
    match body st with
    | (st', Throw err) => handler err st'
    | r => r
    end.

Definition dispatch (a : action) : thunk unit :=
  fun st => ((reducer (fst st) a, snd st ++ [a]), Ok tt).

Definition getState : thunk State := fun st => (st, Ok (fst st)).

Fixpoint dispatchAll (acts : list action) : thunk unit :=
  match acts with
  | [] => ret tt
  | a :: acts' => _ <~ dispatch a ;; dispatchAll acts'
  end.

(** [dispatch(authenticateUser())] *)
Definition dispatchAuthenticateUser : thunk unit :=
  state <~ getState ;;
  _ <~ dispatchAll (fst (authenticateUser state)) ;;
  lift (snd (authenticateUser state)).

Definition configDidLoad (config : value) : thunk unit :=
  dispatch (configLoaded config).

(** [preloadedConfig && preloadedConfig.size > 1] *)
Definition isPreloaded (preloadedConfig : option obj) : bool :=
  match preloadedConfig with
  | Some pre => Nat.ltb 1 (length pre)
  | None => false
  end.

(** [preloadedConfig && preloadedConfig.get('load_config_file') === false] *)
Definition skipsConfigFile (preloadedConfig : option obj) : bool :=
  match preloadedConfig with
  | Some pre => match get "load_config_file" pre with VBool false => true | _ => false end
  | None => false
  end.

(** The [try] block of [loadConfig] up to [applyDefaults]:
    fetch, parse, merge, validate, apply the defaults. *)
Definition buildConfig (g : page) (preloadedConfig : option obj) : outcome obj :=
  let configUrl := getConfigUrl g in
  loadedConfig <- (if skipsConfigFile preloadedConfig then Ok (VObj [])
                   else getConfig g configUrl (isPreloaded preloadedConfig)) ;;
  mergedConfig <- mergePreloadedConfig preloadedConfig loadedConfig ;;
  js <- toJS mergedConfig ;;
  _ <- validateConfig js ;;
  match mergedConfig with
  | VObj m => applyDefaults m
  | _ => Beyond
  end.

Definition loadConfig (g : page) : thunk unit :=
  if truthy (CMS_CONFIG g) then configDidLoad (CMS_CONFIG g)
  else
    _ <~ dispatch configLoading ;;
    tryCatch
      (state <~ getState ;;
       let preloadedConfig := selectConfig state in
       config <~ lift (buildConfig g preloadedConfig) ;;
       _ <~ configDidLoad (VObj config) ;;
       dispatchAuthenticateUser)
      (fun err =>
         _ <~ dispatch (configFailed err) ;;
         throw err).

End Config.

(* ================================================================= *)
(** ** The configuration slot *)

(** Modelled from the spec: the phases of the configuration slot.  The
    reducer of the store is code of the repository outside config.js;
    the spec describes it as a state machine over a single configuration
    slot, [unloaded -> loading -> {loaded | failed}], where [loaded] may
    go back to [loading] on a reload. *)
Inductive phase : Type :=
| Unloaded
| Loading
| Loaded
| Failed (err : error).

(** Modelled from the spec: the configuration slot, its phase and the
    configuration that was published last, if any. *)
Record configSlot : Type := {
  slotPhase : phase;
  configuration : option value
}.

(** Modelled from the spec: the transitions of the slot.  A request
    starts a load; a success publishes the resulting configuration; a
    failure 'transitions to failed and surfaces the error' and 'leaves
    the prior configuration (if any) intact'.  The spec names no other
    transition. *)
Definition specReducer (s : configSlot) (a : action) : configSlot :=
  match a with
  | CONFIG_REQUEST => {| slotPhase := Loading; configuration := configuration s |}
  | CONFIG_SUCCESS config => {| slotPhase := Loaded; configuration := Some config |}
  | CONFIG_FAILURE err => {| slotPhase := Failed err; configuration := configuration s |}
  | _ => s
  end.

(** Modelled from the spec: the preloaded configuration that a load
    reads is the configuration document in the slot. *)
Definition preloaded (s : configSlot) : option obj :=
  match configuration s with
  | Some (VObj config) => Some config
  | _ => None
  end.

(* ================================================================= *)
(** ** Vocabulary of the statements *)

Section Vocabulary.
Import Js.

(** Pairwise distinct keys. *)
Fixpoint distinct (ks : list string) : bool :=
  match ks with
  | [] => true
  | k :: ks' => negb (existsb (String.eqb k) ks') && distinct ks'
  end.

(** A document all of whose objects have pairwise distinct keys: what a
    parser, [fromJS] and the Immutable operations produce. *)
Fixpoint uniqueKeys (v : value) : bool :=
  match v with
  | VList l => forallb uniqueKeys l
  | VObj m =>
      distinct (keys m) &&
      (fix all (m : obj) : bool :=
         match m with
         | [] => true
         | (_, x) :: m' => uniqueKeys x && all m'
         end) m
  | _ => true
  end.

(** A position inside a document. *)
Inductive step : Type :=
| Key (k : string)
| Index (i : nat).

Fixpoint valueAt (path : list step) (v : value) : option value :=
  match path with
  | [] => Some v
  | Key k :: rest =>
      match v with
      | VObj m =>
          match lookup k m with
          | Some x => valueAt rest x
          | None => None
          end
      | _ => None
      end
  | Index i :: rest =>
      match v with
      | VList l =>
          match nth_error l i with
          | Some x => valueAt rest x
          | None => None
          end
      | _ => None
      end
  end.

(** The path leaves the document: on the way it comes to a Map that
    lacks the key, or to a List that is too short for the index. *)
Fixpoint absentFrom (path : list step) (v : value) : bool :=
  match path with
  | [] => false
  | Key k :: rest =>
      match v with
      | VObj m =>
          match lookup k m with
          | Some x => absentFrom rest x
          | None => true
          end
      | _ => false
      end
  | Index i :: rest =>
      match v with
      | VList l =>
          match nth_error l i with
          | Some x => absentFrom rest x
          | None => true
          end
      | _ => false
      end
  end.

(** Nowhere does a List of one document sit at the position of a Map of
    the other: wherever both documents hold a value, the two are Maps,
    or Lists, or one of them is a scalar. *)
Fixpoint sameKinds (existing incoming : value) {struct incoming} : bool :=
  match incoming, existing with
  | VObj n, VObj m =>
      (fix entries (n : obj) : bool :=
         match n with
         | [] => true
         | (k, v) :: n' =>
             match lookup k m with
             | Some e => sameKinds e v
             | None => true
             end && entries n'
         end) n
  | VList n, VList l =>
      (fix items (n l : list value) : bool :=
         match n, l with
         | v :: n', e :: l' => sameKinds e v && items n' l'
         | _, _ => true
         end) n l
  | VObj _, VList _ | VList _, VObj _ => false
  | _, _ => true
  end.

(** The field is marked for translation and is neither the identifier
    field nor the body. *)
Definition translated (identifier : option string) (o : obj) : bool :=
  truthy (get "translate" o)
  && strictNeq (get "name" o) identifier
  && strictNeq (get "name" o) (Some "body").

(** The copy of a field for one language. *)
Definition languageCopy (o : obj) (code : string) : value :=
  VObj (set "name" (VStr code) (set "label" (VStr (upperString code)) (omit "translate" o))).

(** The object-typed field that stands for a translated field. *)
Definition wrapperField (codes : list string) (o : obj) : value :=
  VObj (set "fields" (VList (map (languageCopy o) codes))
          (set "widget" (VStr "object") (omit "translate" o))).

(** What the language expansion makes of one field. *)
Definition expandField (codes : list string) (identifier : option string) (o : obj) : value :=
  if translated identifier o then wrapperField codes o else VObj o.

(** The path has no leading slash. *)
Definition noLeadingSlash (s : string) : bool :=
  match s with
  | String c _ => negb (Ascii.eqb c "/")
  | EmptyString => true
  end.

(** [n] slashes. *)
Fixpoint slashes (n : nat) : string :=
  match n with
  | O => ""
  | S n' => String "/" (slashes n')
  end.

(** The log of dispatched actions publishes [config]. *)
Definition PublishedBy (log : list action) (config : value) : Prop :=
  In (CONFIG_SUCCESS config) log.

(** Shapes on which [applyDefaults] runs to its end: paths are scalars
    that print, [slug] is a Map or a List when it is there, the
    collections are a List of Maps, and no language expansion is asked
    for. *)
Definition printable (v : value) : bool :=
  match toString v with
  | Ok _ => true
  | _ => false
  end.

Definition fileShaped (file : value) : bool :=
  match file with
  | VObj f => printable (get "file" f)
  | _ => false
  end.

Definition collectionShaped (langs : value) (collection : value) : bool :=
  match collection with
  | VObj c =>
      if truthy (get "folder" c) then
        printable (get "folder" c) && negb (truthy langs && truthy (get "fields" c))
      else if truthy (get "files" c) then
        match get "files" c with
        | VList fs => forallb fileShaped fs
        | _ => false
        end
      else true
  | _ => false
  end.

Definition configShaped (cfg : obj) : bool :=
  distinct (keys cfg)
  && printable (get "media_folder" cfg)
  && match lookup "slug" cfg with
     | None | Some (VObj _) | Some (VList _) => true
     | _ => false
     end
  && match get "collections" cfg with
     | VList cs => forallb (collectionShaped (get "languages" cfg)) cs
     | _ => false
     end.

End Vocabulary.

Section LoadVocabulary.
Import Js Immutable.
Variable SIMPLE : string.
Variable selectIdentifier : obj -> outcome (option string).
Variable safeLoad : string -> outcome value.
Variable validateConfig : value -> outcome unit.

(** The document that [loadConfig] takes as loaded: the empty object
    when the preloaded configuration switches the file off, and what
    [getConfig] fetches and parses otherwise. *)
Definition loadedDocument (g : page) (pre : option obj) : outcome value :=
  if skipsConfigFile pre then Ok (VObj [])
  else getConfig safeLoad g (getConfigUrl g) (isPreloaded pre).

(** A step of the block that [loadConfig] tries throws [err]: the fetch
    or the parse of the file (both inside [getConfig]), the merge, the
    validation (with the conversion of the merged document before it),
    or the defaults.  A step is reached only when the steps before it
    have returned. *)
Inductive stepThrows (g : page) (pre : option obj) (err : error) : Prop :=
| loadThrows :
    skipsConfigFile pre = false ->
    getConfig safeLoad g (getConfigUrl g) (isPreloaded pre) = Throw err ->
    stepThrows g pre err
| mergeThrows (loaded : value) :
    loadedDocument g pre = Ok loaded ->
    mergePreloadedConfig pre loaded = Throw err ->
    stepThrows g pre err
| validationThrows (loaded merged : value) :
    loadedDocument g pre = Ok loaded ->
    mergePreloadedConfig pre loaded = Ok merged ->
    toJS merged = Throw err
    \/ (exists js, toJS merged = Ok js /\ validateConfig js = Throw err) ->
    stepThrows g pre err
| defaultsThrow (loaded : value) (merged : obj) :
    loadedDocument g pre = Ok loaded ->
    mergePreloadedConfig pre loaded = Ok (VObj merged) ->
    validateConfig (VObj merged) = Ok tt ->
    applyDefaults SIMPLE selectIdentifier merged = Throw err ->
    stepThrows g pre err.

End LoadVocabulary.

(* ================================================================= *)
(** ** Vocabulary of the further properties *)

Section FurtherVocabulary.
Import Js.

(** A field that the language expansion hands on: it is not null or
    undefined, and it is not an object marked for translation. *)
Definition passesThrough (identifier : option string) (item : value) : bool :=
  match item with
  | VUndef | VNull => false
  | VObj o => negb (translated identifier o)
  | _ => true
  end.

(** The fetch did not deliver a file: the transport failed or the status
    is not 200. *)
Definition fetchFailed (r : fetched) : bool :=
  match r with
  | Rejected _ => true
  | Response status _ _ => negb (Nat.eqb status 200)
  end.

(** The response is a 200 whose content type does not mention YAML. *)
Definition notYaml (r : fetched) : bool :=
  match r with
  | Rejected _ => false
  | Response status contentType _ =>
      Nat.eqb status 200
      && negb (includes "yaml"
                 (match contentType with
                  | Some t => if t =? "" then "Not-Found" else t
                  | None => "Not-Found"
                  end))
  end.

(** The top-level keys that [applyDefaults] may write. *)
Definition defaultedKeys : list string :=
  ["publish_mode"; "display_url"; "public_folder"; "slug"; "collections"].

End FurtherVocabulary.

(* ================================================================= *)
(** ** A sample page and store

    Concrete stand-ins for the code outside config.js, used to run the
    functions on examples. *)

(** A YAML loader that knows the empty text and one document. *)
Definition sampleYaml : string := "{prod: {prod: {x: 1}, y: 2}}".

Definition sampleDocument : value :=
  VObj [("prod", VObj [("prod", VObj [("x", VNum 1)]); ("y", VNum 2)])].

Definition sampleLoad (data : string) : outcome value :=
  if data =? "" then Ok VUndef
  else if data =? sampleYaml then Ok sampleDocument
  else Throw (External "YAMLException").

Definition acceptAll (config : value) : outcome unit := Ok tt.
Definition rejectAll (config : value) : outcome unit :=
  Throw (External "config is invalid").

Definition slugIdentifier (collection : obj) : outcome (option string) :=
  Ok (Some "slug").

(** A store whose state is the configuration slot. *)
Definition slotReducer (state : option obj) (a : action) : option obj :=
  match a with
  | CONFIG_SUCCESS (VObj m) => Some m
  | _ => state
  end.

Definition slotConfig (state : option obj) : option obj := state.

Definition sampleAuth (state : option obj) : list action * outcome unit :=
  ([Foreign "AUTH_REQUEST"], Ok tt).

(** A page without injected configuration whose server answers 404. *)
Definition page404 (env : option string) : page :=
  {| CMS_CONFIG := VUndef;
     CMS_ENV := env;
     configLinkEl := None;
     fetch := fun _ => Response 404 None "" |}.

(** A page whose server answers with a file that is not YAML. *)
Definition pageBroken (env : option string) : page :=
  {| CMS_CONFIG := VUndef;
     CMS_ENV := env;
     configLinkEl := None;
     fetch := fun _ => Response 200 (Some "text/yaml") "{" |}.

(** A page with an injected configuration. *)
Definition pageInjected (config : value) : page :=
  {| CMS_CONFIG := config;
     CMS_ENV := None;
     configLinkEl := None;
     fetch := fun _ => Rejected "TypeError: Failed to fetch" |}.

Definition samplePreloaded : obj :=
  [("isFetching", VBool true); ("backend", VObj [("name", VStr "github")])].

(* ================================================================= *)
(** ** Induction on documents *)

Section ValueInduction.
Variable P : value -> Prop.
Hypothesis HUndef : P VUndef.
Hypothesis HNull : P VNull.
Hypothesis HBool : forall b, P (VBool b).
Hypothesis HNum : forall n, P (VNum n).
Hypothesis HStr : forall s, P (VStr s).
Hypothesis HList : forall l, (forall x, In x l -> P x) -> P (VList l).
Hypothesis HObj : forall m, (forall k x, In (k, x) m -> P x) -> P (VObj m).

Fixpoint value_ind (v : value) : P v :=
  match v with
  | VUndef => HUndef
  | VNull => HNull
  | VBool b => HBool b
  | VNum n => HNum n
  | VStr s => HStr s
  | VList l =>
      HList l
        ((fix items (l : list value) : forall x, In x l -> P x :=
            match l with
            | [] => fun _ (absurd : False) => match absurd with end
            | y :: l' => fun x (H : y = x \/ In x l') =>
                match H with
                | or_introl e => eq_ind y P (value_ind y) x e
                | or_intror i => items l' x i
                end
            end) l)
  | VObj m =>
      HObj m
        ((fix entries (m : obj) : forall k x, In (k, x) m -> P x :=
            match m with
            | [] => fun _ _ (absurd : False) => match absurd with end
            | (k', y) :: m' => fun k x (H : (k', y) = (k, x) \/ In (k, x) m') =>
                match H with
                | or_introl e =>
                    eq_ind y P (value_ind y) x (f_equal snd e)
                | or_intror i => entries m' k x i
                end
            end) m)
  end.
End ValueInduction.

(* ================================================================= *)
(** ** Facts about outcomes, objects and strings *)

Lemma bind_Ok {A B : Type} (m : outcome A) (k : A -> outcome B) (b : B) :
  bind m k = Ok b -> exists a, m = Ok a /\ k a = Ok b.
Proof.
  destruct m as [a| |]; simpl; intros H; try discriminate.
  exists a; split; [reflexivity | exact H].
Qed.

Lemma bind_Throw {A B : Type} (m : outcome A) (k : A -> outcome B) (e : error) :
  bind m k = Throw e -> m = Throw e \/ exists a, m = Ok a /\ k a = Throw e.
Proof.
  destruct m as [a| |]; simpl; intros H; try discriminate.
  - right. exists a. split; [reflexivity | exact H].
  - left. congruence.
Qed.

(** Split a hypothesis [x <- m ;; k = Ok b] into its two runs. *)
Ltac bind_ok H :=
  let a := fresh "r" in
  let Ha := fresh "E" in
  apply bind_Ok in H; destruct H as (a & Ha & H).

Section ObjectFacts.
Import Js.

Lemma lookup_set_same (k : string) (v : value) (m : obj) :
  lookup k (set k v m) = Some v.
Proof.
  induction m as [|[k' v'] m IH]; simpl.
  - now rewrite String.eqb_refl.
  - destruct (String.eqb_spec k k'); simpl.
    + now rewrite String.eqb_refl.
    + destruct (String.eqb_spec k k'); [contradiction | exact IH].
Qed.

Lemma lookup_set_other (k k' : string) (v : value) (m : obj) :
  k <> k' -> lookup k (set k' v m) = lookup k m.
Proof.
  intros Hne. induction m as [|[k0 v0] m IH]; simpl.
  - destruct (String.eqb_spec k k'); [contradiction | reflexivity].
  - destruct (String.eqb_spec k' k0); simpl.
    + subst. destruct (String.eqb_spec k k0); [contradiction | reflexivity].
    + destruct (String.eqb_spec k k0); [reflexivity | exact IH].
Qed.

Lemma get_set_same (k : string) (v : value) (m : obj) : get k (set k v m) = v.
Proof. unfold get. now rewrite lookup_set_same. Qed.

Lemma get_set_other (k k' : string) (v : value) (m : obj) :
  k <> k' -> get k (set k' v m) = get k m.
Proof. intros H. unfold get. now rewrite lookup_set_other. Qed.

Lemma lookup_omit_same (k : string) (m : obj) : lookup k (omit k m) = None.
Proof.
  induction m as [|[k0 v0] m IH]; simpl; [reflexivity|].
  destruct (String.eqb_spec k0 k); simpl; [exact IH|].
  destruct (String.eqb_spec k k0); [subst; contradiction | exact IH].
Qed.

Lemma lookup_omit_other (k k' : string) (m : obj) :
  k <> k' -> lookup k (omit k' m) = lookup k m.
Proof.
  intros Hne. induction m as [|[k0 v0] m IH]; simpl; [reflexivity|].
  destruct (String.eqb_spec k0 k'); simpl.
  - subst. destruct (String.eqb_spec k k'); [contradiction | exact IH].
  - destruct (String.eqb_spec k k0); [reflexivity | exact IH].
Qed.

Lemma lookup_absent (k : string) (m : obj) :
  existsb (String.eqb k) (keys m) = false -> lookup k m = None.
Proof.
  induction m as [|[k0 v0] m IH]; simpl; [reflexivity|].
  intros H. apply orb_false_iff in H. destruct H as [H1 H2].
  rewrite H1. now apply IH.
Qed.

Lemma lookup_In (k : string) (v : value) (m : obj) :
  lookup k m = Some v -> In (k, v) m.
Proof.
  induction m as [|[k0 v0] m IH]; simpl; [discriminate|].
  destruct (String.eqb_spec k k0); intros H.
  - left. congruence.
  - right. now apply IH.
Qed.

(** *** Leading slashes *)

Lemma stripSlashes_noLeadingSlash (s : string) :
  noLeadingSlash (stripSlashes s) = true.
Proof.
  induction s as [|c s IH]; simpl; [reflexivity|].
  destruct (Ascii.eqb c "/") eqn:E; [exact IH|].
  simpl. now rewrite E.
Qed.

Lemma stripSlashes_fixed (s : string) :
  noLeadingSlash s = true -> stripSlashes s = s.
Proof.
  destruct s as [|c s]; simpl; [reflexivity|].
  now destruct (Ascii.eqb c "/").
Qed.

Lemma stripSlashes_suffix (s : string) :
  exists n, s = (slashes n ++ stripSlashes s)%string.
Proof.
  induction s as [|c s [n IH]]; simpl.
  - exists 0. reflexivity.
  - destruct (Ascii.eqb_spec c "/").
    + subst c. exists (S n). simpl. now rewrite <- IH.
    + exists 0. reflexivity.
Qed.

End ObjectFacts.

(* ================================================================= *)
(** ** Facts about merging *)

Section MergeFacts.
Import Js Immutable.
Variable merger : value -> value -> outcome value.

(** A key that the incoming Map lacks keeps its value. *)
Lemma mergeIntoMap_untouched (k : string) (n : obj) :
  forall m r,
    lookup k n = None ->
    mergeIntoMap merger n m = Ok r ->
    lookup k r = lookup k m.
Proof.
  induction n as [|[k0 v0] n IH]; simpl; intros m r Hk H.
  - congruence.
  - destruct (String.eqb_spec k k0) as [|Hne]; [discriminate|].
    destruct (lookup k0 m) as [e|].
    + bind_ok H. rewrite (IH _ _ Hk H). now apply lookup_set_other.
    + rewrite (IH _ _ Hk H). now apply lookup_set_other.
Qed.

(** A key of the incoming Map ends up with the incoming value, combined
    by [merger] with the value that was there, if any. *)
Lemma mergeIntoMap_lookup (n : obj) :
  forall m r,
    distinct (keys n) = true ->
    mergeIntoMap merger n m = Ok r ->
    forall k v,
      lookup k n = Some v ->
      match lookup k m with
      | Some e => exists x, merger e v = Ok x /\ lookup k r = Some x
      | None => lookup k r = Some v
      end.
Proof.
  induction n as [|[k0 v0] n IH]; simpl; intros m r Hd H k v Hk; [discriminate|].
  apply andb_true_iff in Hd. destruct Hd as [Hfresh Hd].
  apply negb_true_iff in Hfresh. apply lookup_absent in Hfresh.
  destruct (String.eqb_spec k k0) as [->|Hne].
  - injection Hk as <-.
    destruct (lookup k0 m) as [e|] eqn:Em.
    + bind_ok H. exists r0. split; [assumption|].
      rewrite (mergeIntoMap_untouched _ _ _ _ Hfresh H). apply lookup_set_same.
    + rewrite (mergeIntoMap_untouched _ _ _ _ Hfresh H). apply lookup_set_same.
  - destruct (lookup k0 m) as [e0|] eqn:Em.
    + bind_ok H. specialize (IH _ _ Hd H _ _ Hk).
      now rewrite lookup_set_other in IH.
    + specialize (IH _ _ Hd H _ _ Hk).
      now rewrite lookup_set_other in IH.
Qed.

(** The merge returns when [merger] does on every key that both Maps have. *)
Lemma mergeIntoMap_returns (n : obj) :
  forall m,
    distinct (keys n) = true ->
    (forall k v e, lookup k n = Some v -> lookup k m = Some e ->
                   exists x, merger e v = Ok x) ->
    exists r, mergeIntoMap merger n m = Ok r.
Proof.
  induction n as [|[k0 v0] n IH]; simpl; intros m Hd Hm; [now eexists|].
  apply andb_true_iff in Hd. destruct Hd as [Hfresh Hd].
  apply negb_true_iff in Hfresh. apply lookup_absent in Hfresh.
  assert (Hrest : forall x k v e,
             lookup k n = Some v -> lookup k (set k0 x m) = Some e ->
             exists y, merger e v = Ok y).
  { intros x k v e Hv He.
    assert (k <> k0) as Hne by congruence.
    rewrite lookup_set_other in He by assumption.
    apply (Hm k v e); [|assumption].
    now destruct (String.eqb_spec k k0). }
  destruct (lookup k0 m) as [e|] eqn:Em.
  - destruct (Hm k0 v0 e) as [x Hx]; [now rewrite String.eqb_refl | assumption|].
    rewrite Hx. simpl. apply IH; [assumption | apply Hrest].
  - apply IH; [assumption | apply Hrest].
Qed.

(** Position by position: an incoming item is combined with the item
    that was there or, past the end of the List, added; the items past
    the end of the incoming List stay. *)
Lemma mergeIntoList_nth (n : list value) :
  forall l r i,
    mergeIntoList merger n l = Ok r ->
    match nth_error n i with
    | Some x =>
        match nth_error l i with
        | Some e => exists y, merger e x = Ok y /\ nth_error r i = Some y
        | None => nth_error r i = Some x
        end
    | None => nth_error r i = nth_error l i
    end.
Proof.
  induction n as [|v n IH]; intros l r i H.
  - assert (r = l) as -> by (destruct l; simpl in H; congruence).
    now destruct i.
  - destruct l as [|e l]; simpl in H.
    + injection H as <-. destruct (nth_error (v :: n) i); now destruct i.
    + bind_ok H. bind_ok H. injection H as <-.
      destruct i as [|i]; simpl.
      * now exists r0.
      * apply (IH _ _ i E0).
Qed.

(** The merge of two Lists returns when [merger] does at every position
    that both have. *)
Lemma mergeIntoList_returns (n : list value) :
  forall l,
    (forall i v e, nth_error n i = Some v -> nth_error l i = Some e ->
                   exists x, merger e v = Ok x) ->
    exists r, mergeIntoList merger n l = Ok r.
Proof.
  induction n as [|v n IH]; intros l Hl.
  - exists l. now destruct l.
  - destruct l as [|e l]; simpl; [now eexists|].
    destruct (Hl 0 v e eq_refl eq_refl) as [x Hx]. rewrite Hx. simpl.
    destruct (IH l) as [r Hr].
    + intros i v' e' Hv He. exact (Hl (S i) v' e' Hv He).
    + rewrite Hr. simpl. now eexists.
Qed.

End MergeFacts.

Section DeepMergeFacts.
Import Js Immutable.

Lemma uniqueKeys_obj (m : obj) :
  uniqueKeys (VObj m) = true ->
  distinct (keys m) = true /\ forall k x, In (k, x) m -> uniqueKeys x = true.
Proof.
  simpl. intros H. apply andb_true_iff in H. destruct H as [Hd Hall].
  split; [exact Hd|]. clear Hd.
  induction m as [|[k0 x0] m IH]; intros k x Hin; [destruct Hin|].
  apply andb_true_iff in Hall. destruct Hall as [H0 Hall].
  destruct Hin as [E|Hin]; [congruence | now apply (IH Hall k x)].
Qed.

Lemma uniqueKeys_list (l : list value) :
  uniqueKeys (VList l) = true -> forall x, In x l -> uniqueKeys x = true.
Proof. simpl. intros H. now apply forallb_forall. Qed.

Lemma deepMerger_scalar (existing incoming : value) :
  isCollection incoming = false -> deepMerger existing incoming = Ok incoming.
Proof. destruct existing, incoming; simpl; intros H; discriminate || reflexivity. Qed.

Lemma deepMerger_over_scalar (existing incoming : value) :
  isCollection existing = false -> deepMerger existing incoming = Ok incoming.
Proof. destruct existing, incoming; simpl; intros H; discriminate || reflexivity. Qed.

Lemma sameKinds_obj (m n : obj) :
  sameKinds (VObj m) (VObj n) = true ->
  forall k v e, In (k, v) n -> lookup k m = Some e -> sameKinds e v = true.
Proof.
  simpl. induction n as [|[k0 v0] n IH]; intros H k v e Hin He; [destruct Hin|].
  apply andb_true_iff in H. destruct H as [H0 H].
  destruct Hin as [E|Hin].
  - injection E as <- <-. now rewrite He in H0.
  - now apply (IH H k v e).
Qed.

Lemma sameKinds_list (l n : list value) :
  sameKinds (VList l) (VList n) = true ->
  forall i v e, nth_error n i = Some v -> nth_error l i = Some e -> sameKinds e v = true.
Proof.
  simpl. revert l. induction n as [|v0 n IH]; intros l H i v e Hv He.
  - destruct i; discriminate.
  - destruct l as [|e0 l]; [destruct i; discriminate|].
    apply andb_true_iff in H. destruct H as [H0 H].
    destruct i as [|i]; simpl in Hv, He.
    + injection Hv as <-. injection He as <-. exact H0.
    + exact (IH l H i v e Hv He).
Qed.

(** A path that leaves a document leads nowhere in it. *)
Lemma absentFrom_valueAt (path : list step) :
  forall v, absentFrom path v = true -> valueAt path v = None.
Proof.
  induction path as [|[k|i] rest IH]; intros v H; simpl in *; [discriminate| |].
  - destruct v as [| | b | n | s | l | m]; try discriminate.
    destruct (lookup k m) as [x|]; [now apply IH | reflexivity].
  - destruct v as [| | b | n | s | l | m]; try discriminate.
    destruct (nth_error l i) as [x|]; [now apply IH | reflexivity].
Qed.

Lemma valueAt_scalar (path : list step) (v : value) :
  isCollection v = false -> path <> [] -> valueAt path v = None.
Proof.
  intros Hv Hp. destruct path as [|[k|i] rest]; [contradiction| |];
    destruct v; try discriminate; reflexivity.
Qed.

(** Two documents in which no List meets a Map can be merged. *)
Lemma deepMerger_returns (incoming : value) :
  uniqueKeys incoming = true ->
  forall existing,
    sameKinds existing incoming = true ->
    exists merged, deepMerger existing incoming = Ok merged.
Proof.
  induction incoming as [| | b | n | s | l IH | m IH] using value_ind;
    intros Hu existing Hs;
    try (rewrite deepMerger_scalar by reflexivity; now eexists).
  - (* a List *)
    destruct existing as [| | ? | ? | ? | l0 | m0];
      try discriminate Hs; try (eexists; reflexivity).
    destruct (mergeIntoList_returns deepMerger l l0) as [r Hr].
    + intros i v e Hv He. apply (IH v (nth_error_In _ _ Hv)).
      * exact (uniqueKeys_list _ Hu v (nth_error_In _ _ Hv)).
      * exact (sameKinds_list _ _ Hs i v e Hv He).
    + simpl. rewrite Hr. now eexists.
  - (* a Map *)
    destruct existing as [| | ? | ? | ? | l0 | m0];
      try discriminate Hs; try (eexists; reflexivity).
    destruct (uniqueKeys_obj _ Hu) as [Hd Hsub].
    destruct (mergeIntoMap_returns deepMerger m m0 Hd) as [r Hr].
    + intros k v e Hv He. apply lookup_In in Hv. apply (IH k v Hv).
      * exact (Hsub k v Hv).
      * exact (sameKinds_obj _ _ Hs k v e Hv He).
    + simpl. rewrite Hr. now eexists.
Qed.

(** Every leaf of the incoming document is found, unchanged and at the
    same position, in the result of a deep merge in which no List meets
    a Map. *)
Lemma deepMerger_keeps_leaves (incoming : value) :
  uniqueKeys incoming = true ->
  forall existing merged,
    sameKinds existing incoming = true ->
    deepMerger existing incoming = Ok merged ->
    forall path leaf,
      valueAt path incoming = Some leaf ->
      isCollection leaf = false ->
      valueAt path merged = Some leaf.
Proof.
  induction incoming as [| | b | n | s | l IH | m IH] using value_ind;
    intros Hu existing merged Hs H path leaf Hat Hleaf;
    try (rewrite deepMerger_scalar in H by reflexivity;
         injection H as <-; exact Hat).
  - (* a List *)
    destruct existing as [| | ? | ? | ? | l0 | m0];
      try (injection H as <-; exact Hat); [|discriminate Hs].
    simpl in H. bind_ok H. injection H as <-.
    destruct path as [|[k|i] rest]; simpl in Hat.
    + injection Hat as <-. discriminate.
    + discriminate.
    + destruct (nth_error l i) as [x|] eqn:Ex; [|discriminate].
      pose proof (mergeIntoList_nth _ _ _ _ i E) as Hi. rewrite Ex in Hi.
      simpl. destruct (nth_error l0 i) as [e|] eqn:Ee.
      * destruct Hi as (y & Hy & ->).
        apply (IH x (nth_error_In _ _ Ex)
                 (uniqueKeys_list _ Hu x (nth_error_In _ _ Ex)) e y); try assumption.
        exact (sameKinds_list _ _ Hs i x e Ex Ee).
      * now rewrite Hi.
  - (* a Map *)
    destruct existing as [| | ? | ? | ? | l0 | m0];
      try (injection H as <-; exact Hat); [discriminate Hs|].
    simpl in H. bind_ok H. injection H as <-.
    destruct (uniqueKeys_obj _ Hu) as [Hd Hsub].
    destruct path as [|[k|i] rest]; simpl in Hat.
    + injection Hat as <-. discriminate.
    + destruct (lookup k m) as [x|] eqn:Ex; [|discriminate].
      pose proof (mergeIntoMap_lookup _ _ _ _ Hd E _ _ Ex) as Hk.
      simpl. apply lookup_In in Ex.
      destruct (lookup k m0) as [e|] eqn:Ee.
      * destruct Hk as (y & He & ->).
        apply (IH k x Ex (Hsub k x Ex) e y); try assumption.
        exact (sameKinds_obj _ _ Hs k x e Ex Ee).
      * rewrite Hk. exact Hat.
    + discriminate.
Qed.

(** What the incoming document does not have stays as it was: at a path
    that leaves the incoming document, the merged document holds what
    the existing one holds there. *)
Lemma deepMerger_keeps_absent (incoming : value) :
  uniqueKeys incoming = true ->
  forall existing merged,
    deepMerger existing incoming = Ok merged ->
    forall path,
      absentFrom path incoming = true ->
      valueAt path merged = valueAt path existing.
Proof.
  induction incoming as [| | b | n | s | l IH | m IH] using value_ind;
    intros Hu existing merged H path Hab;
    try (destruct path as [|[k|i] rest]; discriminate Hab).
  - (* a List *)
    assert (Hp : path <> []) by (intros ->; discriminate Hab).
    destruct existing as [| | ? | ? | ? | l0 | m0];
      try (injection H as <-; rewrite (absentFrom_valueAt _ _ Hab);
           symmetry; now apply valueAt_scalar).
    + simpl in H. bind_ok H. injection H as <-.
      destruct path as [|[k|i] rest]; simpl in Hab; try discriminate.
      pose proof (mergeIntoList_nth _ _ _ _ i E) as Hi. simpl.
      destruct (nth_error l i) as [x|] eqn:Ex.
      * destruct (nth_error l0 i) as [e|] eqn:Ee.
        -- destruct Hi as (y & Hy & ->).
           exact (IH x (nth_error_In _ _ Ex)
                    (uniqueKeys_list _ Hu x (nth_error_In _ _ Ex)) e y Hy rest Hab).
        -- rewrite Hi. now apply absentFrom_valueAt.
      * now rewrite Hi.
    + simpl in H. bind_ok H. injection H as <-.
      destruct path as [|[k|i] rest]; simpl in Hab; try discriminate. reflexivity.
  - (* a Map *)
    assert (Hp : path <> []) by (intros ->; discriminate Hab).
    destruct existing as [| | ? | ? | ? | l0 | m0];
      try (injection H as <-; rewrite (absentFrom_valueAt _ _ Hab);
           symmetry; now apply valueAt_scalar).
    + destruct m as [|entry m]; [|discriminate H]. now injection H as <-.
    + simpl in H. bind_ok H. injection H as <-.
      destruct (uniqueKeys_obj _ Hu) as [Hd Hsub].
      destruct path as [|[k|i] rest]; simpl in Hab; try discriminate.
      simpl. destruct (lookup k m) as [x|] eqn:Ex.
      * pose proof (mergeIntoMap_lookup _ _ _ _ Hd E _ _ Ex) as Hk.
        apply lookup_In in Ex.
        destruct (lookup k m0) as [e|] eqn:Ee.
        -- destruct Hk as (y & Hy & ->).
           exact (IH k x Ex (Hsub k x Ex) e y Hy rest Hab).
        -- rewrite Hk. now apply absentFrom_valueAt.
      * now rewrite (mergeIntoMap_untouched _ _ _ _ _ Ex E).
Qed.

End DeepMergeFacts.

(* ================================================================= *)
(** ** Facts about lists of outcomes *)

Section MapMFacts.
Context {A B : Type} (f : A -> outcome B).

Lemma mapM_nth (l : list A) :
  forall l',
    mapM f l = Ok l' ->
    length l' = length l /\
    forall i a, nth_error l i = Some a ->
                exists b, nth_error l' i = Some b /\ f a = Ok b.
Proof.
  induction l as [|a0 l IH]; simpl; intros l' H.
  - injection H as <-. split; [reflexivity|]. intros [|i] a Hi; discriminate.
  - bind_ok H. bind_ok H. injection H as <-.
    destruct (IH _ E0) as [Hlen Hnth]. split; [simpl; now rewrite Hlen|].
    intros [|i] a Hi; simpl in *.
    + injection Hi as <-. exists r. now split.
    + now apply Hnth.
Qed.

Lemma mapM_returns (l : list A) :
  (forall a, In a l -> exists b, f a = Ok b) -> exists l', mapM f l = Ok l'.
Proof.
  induction l as [|a0 l IH]; simpl; intros H; [now eexists|].
  destruct (H a0 (or_introl eq_refl)) as [b Hb]. rewrite Hb. simpl.
  destruct IH as [l' Hl']; [intros a Ha; apply H; now right|].
  rewrite Hl'. simpl. now eexists.
Qed.

End MapMFacts.

(* ================================================================= *)
(** ** Facts about applyDefaults *)

Section ApplyDefaultsFacts.
Import Js Immutable.
Variable SIMPLE : string.
Variable selectIdentifier : obj -> outcome (option string).

(** The keys of the slug defaults are no indices of a List. *)
Lemma slug_keys_no_index (key : string) (dflt : value) :
  In (key, dflt) [("encoding", VStr "unicode"); ("clean_accents", VBool false);
                  ("sanitize_replacement", VStr "-")] ->
  arrayIndex key = None.
Proof.
  intros [H|[H|[H|[]]]]; injection H as <- _; reflexivity.
Qed.

(** One slug default.  The other top-level keys stay.  When [slug] is
    missing or a Map, the sub-key gets the default unless it holds a
    truthy value, and the other sub-keys stay; when [slug] is a List, it
    is left as it is; on any other [slug] the default does not return. *)
Lemma slugDefault_spec (key : string) (dflt : value) (m m' : obj) :
  arrayIndex key = None ->
  slugDefault key dflt m = Ok m' ->
  (forall k, k <> "slug" -> lookup k m' = lookup k m)
  /\ match lookup "slug" m with
     | Some (VList l) => lookup "slug" m' = Some (VList l)
     | None | Some (VObj _) =>
         (exists s', lookup "slug" m' = Some (VObj s'))
         /\ valueAt [Key "slug"; Key key] (VObj m') =
              Some (match valueAt [Key "slug"; Key key] (VObj m) with
                    | Some v => if truthy v then v else dflt
                    | None => dflt
                    end)
         /\ (forall key', key' <> key ->
               valueAt [Key "slug"; Key key'] (VObj m')
               = valueAt [Key "slug"; Key key'] (VObj m))
     | Some _ => False
     end.
Proof.
  unfold slugDefault, setInMap. intros Hidx H. simpl in H. simpl.
  destruct (lookup "slug" m) as [[| | b | n | s0 | l | s]|] eqn:Es;
    simpl in H; try discriminate H.
  - (* [slug] is a List *)
    unfold listGet, listSet in H. rewrite Hidx in H. simpl in H.
    injection H as <-. split; [|apply lookup_set_same].
    intros k Hne. now apply lookup_set_other.
  - (* [slug] is a Map *)
    destruct (lookup key s) as [x|] eqn:Ex; simpl in H.
    + destruct (truthy x) eqn:Et; simpl in H.
      * injection H as <-. split; [reflexivity|]. rewrite Es.
        split; [now eexists|]. rewrite Ex. now split.
      * injection H as <-. split; [intros k Hne; now apply lookup_set_other|].
        rewrite lookup_set_same. split; [now eexists|].
        rewrite lookup_set_same. split; [reflexivity|].
        intros key' Hne. now rewrite lookup_set_other.
    + injection H as <-. split; [intros k Hne; now apply lookup_set_other|].
      rewrite lookup_set_same. split; [now eexists|].
      rewrite lookup_set_same. split; [reflexivity|].
      intros key' Hne. now rewrite lookup_set_other.
  - (* there is no [slug] *)
    injection H as <-. split; [intros k Hne; now apply lookup_set_other|].
    rewrite lookup_set_same. split; [now eexists|].
    simpl. rewrite String.eqb_refl. split; [reflexivity|].
    intros key' Hne. now destruct (String.eqb_spec key' key).
Qed.

(** The keys that the configuration brings replace the defaults. *)
Lemma mergeDeep_defaults (cfg m0 : obj) :
  distinct (keys cfg) = true ->
  mergeDeep (defaults SIMPLE) (VObj cfg) = Ok m0 ->
  forall k, k <> "publish_mode" -> lookup k m0 = lookup k cfg.
Proof.
  unfold mergeDeep. intros Hd H k Hne.
  assert (Hk : lookup k (defaults SIMPLE) = None).
  { simpl. now destruct (String.eqb_spec k "publish_mode"). }
  destruct (lookup k cfg) as [v|] eqn:Ek.
  - pose proof (mergeIntoMap_lookup _ _ _ _ Hd H _ _ Ek) as Hl.
    now rewrite Hk in Hl.
  - rewrite (mergeIntoMap_untouched _ _ _ _ _ Ek H). exact Hk.
Qed.

(** The stages of [applyDefaults]. *)
Lemma applyDefaults_stages (cfg out : obj) :
  applyDefaults SIMPLE selectIdentifier cfg = Ok out ->
  exists m0 m1 m2 m5 cols,
    mergeDeep (defaults SIMPLE) (VObj cfg) = Ok m0
    /\ (forall k, k <> "display_url" -> lookup k m1 = lookup k m0)
    /\ (exists trimmed,
          trimStart (get "media_folder" m1) = Ok trimmed
          /\ m2 = if negb (truthy (get "public_folder" m1))
                  then set "public_folder" (VStr ("/" ++ trimmed)) m1
                  else m1)
    /\ (m3 <- slugDefault "encoding" (VStr "unicode") m2 ;;
        m4 <- slugDefault "clean_accents" (VBool false) m3 ;;
        slugDefault "sanitize_replacement" (VStr "-") m4) = Ok m5
    /\ match get "collections" m5 with
       | VList cs =>
           cs' <- mapM (collectionDefaults selectIdentifier (get "languages" m5)) cs ;; Ok (VList cs')
       | VObj cs =>
           cs' <- mapValues (collectionDefaults selectIdentifier (get "languages" m5)) cs ;;
           Ok (VObj cs')
       | _ => Throw (TypeError "Cannot read property map")
       end = Ok cols
    /\ out = set "collections" cols m5.
Proof.
  unfold applyDefaults. intros H.
  bind_ok H. rename r into m0.
  set (m1 := if negb (truthy (get "display_url" m0)) && truthy (get "site_url" m0)
             then set "display_url" (get "site_url" m0) m0 else m0) in *.
  bind_ok H. rename r into trimmed.
  set (m2 := if negb (truthy (get "public_folder" m1))
             then set "public_folder" (VStr ("/" ++ trimmed)) m1 else m1) in *.
  bind_ok H. rename r into m3.
  bind_ok H. rename r into m4.
  bind_ok H. rename r into m5.
  bind_ok H. rename r into cols.
  injection H as <-.
  exists m0, m1, m2, m5, cols.
  split; [assumption|]. split.
  { intros k Hne. subst m1.
    destruct (negb (truthy (get "display_url" m0)) && truthy (get "site_url" m0));
      [now apply lookup_set_other | reflexivity]. }
  split; [now exists trimmed|]. split.
  { rewrite E1. simpl. rewrite E2. simpl. exact E3. }
  split; [assumption | reflexivity].
Qed.

(** The three slug defaults together. *)
Lemma slugDefaults_spec (m2 m5 : obj) :
  (m3 <- slugDefault "encoding" (VStr "unicode") m2 ;;
   m4 <- slugDefault "clean_accents" (VBool false) m3 ;;
   slugDefault "sanitize_replacement" (VStr "-") m4) = Ok m5 ->
  match lookup "slug" m2 with
  | Some (VList l) => lookup "slug" m5 = Some (VList l)
  | None | Some (VObj _) =>
      forall key dflt,
        In (key, dflt) [("encoding", VStr "unicode"); ("clean_accents", VBool false);
                        ("sanitize_replacement", VStr "-")] ->
        valueAt [Key "slug"; Key key] (VObj m5) =
          Some (match valueAt [Key "slug"; Key key] (VObj m2) with
                | Some v => if truthy v then v else dflt
                | None => dflt
                end)
  | Some _ => False
  end.
Proof.
  intros H. bind_ok H. bind_ok H. rename r into m3, r0 into m4.
  destruct (slugDefault_spec "encoding" _ _ _ eq_refl E) as (_ & S1).
  destruct (slugDefault_spec "clean_accents" _ _ _ eq_refl E0) as (_ & S2).
  destruct (slugDefault_spec "sanitize_replacement" _ _ _ eq_refl H) as (_ & S3).
  assert (G : (lookup "slug" m2 = None \/ exists s, lookup "slug" m2 = Some (VObj s)) ->
              forall key dflt,
                In (key, dflt) [("encoding", VStr "unicode"); ("clean_accents", VBool false);
                                ("sanitize_replacement", VStr "-")] ->
                valueAt [Key "slug"; Key key] (VObj m5) =
                  Some (match valueAt [Key "slug"; Key key] (VObj m2) with
                        | Some v => if truthy v then v else dflt
                        | None => dflt
                        end)).
  { intros Hshape.
    assert (T1 : (exists s', lookup "slug" m3 = Some (VObj s'))
                 /\ valueAt [Key "slug"; Key "encoding"] (VObj m3) =
                      Some (match valueAt [Key "slug"; Key "encoding"] (VObj m2) with
                            | Some v => if truthy v then v else VStr "unicode"
                            | None => VStr "unicode"
                            end)
                 /\ (forall key', key' <> "encoding" ->
                       valueAt [Key "slug"; Key key'] (VObj m3)
                       = valueAt [Key "slug"; Key key'] (VObj m2))).
    { destruct Hshape as [E2|[s E2]]; rewrite E2 in S1; exact S1. }
    destruct T1 as ((s3 & E3) & V1 & O1).
    rewrite E3 in S2. destruct S2 as ((s4 & E4) & V2 & O2).
    rewrite E4 in S3. destruct S3 as (_ & V3 & O3).
    intros key dflt [Hk|[Hk|[Hk|[]]]]; injection Hk as <- <-.
    - now rewrite O3, O2, V1 by discriminate.
    - now rewrite O3, V2, O1 by discriminate.
    - now rewrite V3, O2, O1 by discriminate. }
  destruct (lookup "slug" m2) as [[| | b | n | s0 | l | s]|] eqn:E2;
    try contradiction.
  - rewrite S1 in S2. rewrite S2 in S3. exact S3.
  - apply G. right. now exists s.
  - apply G. now left.
Qed.

(** The three slug defaults leave the other top-level keys alone. *)
Lemma slugDefaults_other (m2 m5 : obj) :
  (m3 <- slugDefault "encoding" (VStr "unicode") m2 ;;
   m4 <- slugDefault "clean_accents" (VBool false) m3 ;;
   slugDefault "sanitize_replacement" (VStr "-") m4) = Ok m5 ->
  forall k, k <> "slug" -> lookup k m5 = lookup k m2.
Proof.
  intros H k Hne. bind_ok H. bind_ok H.
  destruct (slugDefault_spec "encoding" _ _ _ eq_refl E) as (H1 & _).
  destruct (slugDefault_spec "clean_accents" _ _ _ eq_refl E0) as (H2 & _).
  destruct (slugDefault_spec "sanitize_replacement" _ _ _ eq_refl H) as (H3 & _).
  rewrite H3, H2, H1 by assumption. reflexivity.
Qed.

End ApplyDefaultsFacts.

(* ================================================================= *)
(** ** Facts about collections and language fields *)

Section CollectionFacts.
Import Js Immutable.
Variable SIMPLE : string.
Variable selectIdentifier : obj -> outcome (option string).

Lemma langField_copy (o : obj) (code : string) :
  allAscii code = true -> langField o (VStr code) = Ok (languageCopy o code).
Proof. intros H. unfold langField, languageCopy. simpl. now rewrite H. Qed.

Lemma langFields_copies (o : obj) (codes : list string) :
  forallb allAscii codes = true ->
  mapM (langField o) (map VStr codes) = Ok (map (languageCopy o) codes).
Proof.
  induction codes as [|code codes IH]; simpl; intros H; [reflexivity|].
  apply andb_true_iff in H. destruct H as [H1 H2].
  assert (E := langField_copy o code H1). unfold langField in E. simpl in E.
  unfold langField at 1. simpl. rewrite H1. simpl.
  now rewrite (IH H2).
Qed.

(** On a field object the callback of [reduce] appends the expansion. *)
Lemma addLanguageField_expand (codes : list string) (identifier : option string)
  (acc : list value) (o : obj) :
  forallb allAscii codes = true ->
  addLanguageField (VList (map VStr codes)) identifier acc (VObj o)
  = Ok (acc ++ [expandField codes identifier o]).
Proof.
  intros H. unfold addLanguageField, expandField, translated, wrapperField. simpl.
  destruct (truthy (get "translate" o) && strictNeq (get "name" o) identifier
            && strictNeq (get "name" o) (Some "body")); [|reflexivity].
  now rewrite (langFields_copies o codes H).
Qed.

Lemma reduce_expand (codes : list string) (identifier : option string) (items : list obj) :
  forallb allAscii codes = true ->
  forall acc,
    reduce (addLanguageField (VList (map VStr codes)) identifier) (map VObj items) acc
    = Ok (acc ++ map (expandField codes identifier) items).
Proof.
  intros H. induction items as [|o items IH]; intros acc; simpl.
  - now rewrite app_nil_r.
  - rewrite (addLanguageField_expand codes identifier acc o H). simpl.
    rewrite IH. now rewrite <- app_assoc.
Qed.

(** A path of a file keeps everything but its leading slashes. *)
Lemma fileDefaults_path (file : obj) (p : string) :
  get "file" file = VStr p ->
  fileDefaults (VObj file) = Ok (VObj (set "file" (VStr (stripSlashes p)) file)).
Proof. intros H. unfold fileDefaults. now rewrite H. Qed.

(** The collection that [collectionDefaults] hands to [selectIdentifier]. *)
Lemma collectionDefaults_folder (langs : value) (c : obj) (f : string) (r : value) :
  get "folder" c = VStr f ->
  f <> "" ->
  collectionDefaults selectIdentifier langs (VObj c) = Ok r ->
  exists c', r = VObj c' /\ get "folder" c' = VStr (stripSlashes f).
Proof.
  intros Hf Hne H. unfold collectionDefaults in H. rewrite Hf in H.
  assert (Ht : truthy (VStr f) = true).
  { simpl. now destruct (String.eqb_spec f ""). }
  rewrite Ht in H. bind_ok H. simpl in H. injection H as <-.
  eexists. split; [reflexivity | apply get_set_same].
Qed.

Lemma collectionDefaults_files (langs : value) (c : obj) (fs : list value) (r : value) :
  truthy (get "folder" c) = false ->
  get "files" c = VList fs ->
  collectionDefaults selectIdentifier langs (VObj c) = Ok r ->
  exists fs', r = VObj (set "files" (VList fs') c) /\ mapM fileDefaults fs = Ok fs'.
Proof.
  intros Hf Hfs H. unfold collectionDefaults in H. rewrite Hf, Hfs in H. simpl in H.
  bind_ok H. injection H as <-. now exists r0.
Qed.

(** Without configured languages a folder collection only gets its
    media folder default and its folder stripped. *)
Lemma collectionDefaults_plain (langs : value) (c : obj) (f : string) :
  get "folder" c = VStr f ->
  f <> "" ->
  truthy langs = false ->
  collectionDefaults selectIdentifier langs (VObj c)
  = Ok (VObj (set "folder" (VStr (stripSlashes f))
                (if has "path" c && negb (has "media_folder" c)
                 then set "media_folder" (VStr "") c else c))).
Proof.
  intros Hf Hne Hl. unfold collectionDefaults. rewrite Hf.
  assert (Ht : truthy (VStr f) = true).
  { simpl. now destruct (String.eqb_spec f ""). }
  rewrite Ht, Hl. reflexivity.
Qed.

(** The collections of the result are the images of the collections of
    the input, in order. *)
Lemma applyDefaults_collections (cfg out : obj) (cs : list value) :
  distinct (keys cfg) = true ->
  applyDefaults SIMPLE selectIdentifier cfg = Ok out ->
  get "collections" cfg = VList cs ->
  exists cs',
    get "collections" out = VList cs'
    /\ mapM (collectionDefaults selectIdentifier (get "languages" cfg)) cs = Ok cs'.
Proof.
  intros Hd H Hcs.
  destruct (applyDefaults_stages _ _ _ _ H) as (m0 & m1 & m2 & m5 & cols & E0 & E1 & E2 & E5 & Ec & ->).
  assert (Hkeep : forall k, k <> "publish_mode" -> k <> "display_url" ->
                            k <> "public_folder" -> k <> "slug" ->
                            lookup k m5 = lookup k cfg).
  { intros k H1 H2 H3 H4.
    rewrite (slugDefaults_other _ _ E5 k H4).
    rewrite <- (mergeDeep_defaults _ _ _ Hd E0 k H1), <- (E1 k H2).
    destruct E2 as (trimmed & _ & ->).
    destruct (negb (truthy (get "public_folder" m1)));
      [now apply lookup_set_other | reflexivity]. }
  assert (Hc : get "collections" m5 = VList cs).
  { unfold get in *. rewrite Hkeep by discriminate. exact Hcs. }
  assert (Hl : get "languages" m5 = get "languages" cfg).
  { unfold get. rewrite Hkeep by discriminate. reflexivity. }
  rewrite Hc, Hl in Ec. bind_ok Ec. injection Ec as <-.
  exists r. split; [apply get_set_same | assumption].
Qed.

End CollectionFacts.

(* ================================================================= *)
(** ** Facts about parsing and fetching *)

Section ParseFacts.
Import Js Immutable.
Variable safeLoad : string -> outcome value.

Lemma lookup_keys (k : string) (o : obj) :
  In k (keys o) -> exists v, lookup k o = Some v.
Proof.
  induction o as [|[k0 v0] o IH]; simpl; intros H; [destruct H|].
  destruct (String.eqb_spec k k0); [now exists v0|].
  destruct H as [H|H]; [congruence | now apply IH].
Qed.

Lemma lookup_fold_set (o : obj) (ks : list string) :
  forall c k,
    lookup k (fold_left (fun c key => set key (get key o) c) ks c)
    = if existsb (String.eqb k) ks then Some (get k o) else lookup k c.
Proof.
  induction ks as [|k0 ks IH]; intros c k; simpl; [reflexivity|].
  rewrite IH. destruct (existsb (String.eqb k) ks); [now rewrite orb_true_r|].
  rewrite orb_false_r. destruct (String.eqb_spec k k0) as [->|Hne].
  - apply lookup_set_same.
  - now apply lookup_set_other.
Qed.

(** As long as no hoisted key is the environment name itself, the
    overlay stays where it is and each of its keys is copied. *)
Lemma hoist_copies (env : string) (o : obj) (ks : list string) :
  forall c,
    lookup env c = Some (VObj o) ->
    (forall k, In k ks -> k <> env /\ k <> "__proto__" /\ In k (keys o)) ->
    hoist env ks c = Ok (fold_left (fun c key => set key (get key o) c) ks c).
Proof.
  induction ks as [|k0 ks IH]; intros c Hc Hks; simpl; [reflexivity|].
  destruct (Hks k0 (or_introl eq_refl)) as (Hne & Hproto & Hin).
  destruct (lookup_keys _ _ Hin) as [v Hv].
  rewrite Hc. simpl. rewrite Hv. simpl.
  unfold setProp. destruct (String.eqb_spec k0 "__proto__"); [contradiction|]. simpl.
  unfold get at 2. rewrite Hv.
  apply IH.
  - rewrite lookup_set_other by congruence. exact Hc.
  - intros k Hk. apply Hks. now right.
Qed.

(** X13. The overlay of the active environment is hoisted when it has no
    child named like the environment (and none named [__proto__]): each
    of its children is then a top-level key of the result with the value
    it has in the overlay, and every other top-level key, the overlay
    itself included, is as it was parsed. *)
Lemma parseConfig_hoists (g : page) (data env : string) (c o : obj) :
  safeLoad data = Ok (VObj c) ->
  CMS_ENV g = Some env ->
  lookup env c = Some (VObj o) ->
  lookup env o = None ->
  lookup "__proto__" o = None ->
  exists c',
    parseConfig safeLoad g data = Ok (VObj c')
    /\ (forall k v, lookup k o = Some v -> lookup k c' = Some v)
    /\ (forall k, lookup k o = None -> lookup k c' = lookup k c).
Proof.
  intros Hload Henv Hc Hself Hproto.
  assert (Hks : forall k, In k (keys o) -> k <> env /\ k <> "__proto__" /\ In k (keys o)).
  { intros k Hk. destruct (lookup_keys _ _ Hk) as [v Hv].
    repeat split; [congruence | congruence | assumption]. }
  exists (fold_left (fun c key => set key (get key o) c) (keys o) c).
  split; [|split].
  - unfold parseConfig. rewrite Hload, Henv. simpl. rewrite Hc. simpl.
    now rewrite (hoist_copies env o (keys o) c Hc Hks).
  - intros k v Hv. rewrite lookup_fold_set.
    assert (In k (keys o)) as Hin.
    { apply lookup_In in Hv. now apply (in_map fst) in Hv. }
    assert (existsb (String.eqb k) (keys o) = true) as ->.
    { apply existsb_exists. exists k. split; [assumption | apply String.eqb_refl]. }
    unfold get. now rewrite Hv.
  - intros k Hk. rewrite lookup_fold_set.
    destruct (existsb (String.eqb k) (keys o)) eqn:E; [|reflexivity].
    apply existsb_exists in E. destruct E as (k' & Hin & Heq).
    apply String.eqb_eq in Heq. subst k'.
    destruct (lookup_keys _ _ Hin) as [v Hv]. congruence.
Qed.

(** Without an active environment the parsed document is returned as it is. *)
Lemma parseConfig_no_env (g : page) (data : string) :
  CMS_ENV g = None -> parseConfig safeLoad g data = safeLoad data.
Proof.
  intros H. unfold parseConfig. rewrite H. now destruct (safeLoad data).
Qed.

(** A failed fetch without a preloaded configuration is a load error. *)
Lemma getConfig_failure_not_preloaded (g : page) (file : string) :
  match fetch g file with
  | Rejected _ => True
  | Response status _ _ => status <> 200
  end ->
  exists message, getConfig safeLoad g file false = Throw (LoadError message).
Proof.
  unfold getConfig. destruct (fetch g file) as [print|status ct body]; intros H.
  - now eexists.
  - apply Nat.eqb_neq in H. rewrite H. now eexists.
Qed.

(** A failed fetch with a preloaded configuration stands for an empty
    document when no environment name is active. *)
Lemma getConfig_failure_preloaded (g : page) (file : string) (pre : obj) :
  safeLoad "" = Ok VUndef ->
  CMS_ENV g = None ->
  match fetch g file with
  | Rejected _ => True
  | Response status _ _ => status <> 200
  end ->
  getConfig safeLoad g file true = Ok VUndef
  /\ mergePreloadedConfig (Some pre) VUndef = Ok (VObj pre).
Proof.
  intros Hempty Henv H. split; [|reflexivity].
  unfold getConfig. destruct (fetch g file) as [print|status ct body].
  - now rewrite parseConfig_no_env.
  - apply Nat.eqb_neq in H. rewrite H. simpl. now rewrite parseConfig_no_env.
Qed.

End ParseFacts.

(* ================================================================= *)
(** ** Facts about the store *)

Section StoreFacts.
Import Js Immutable.
Variable State : Type.
Variable reducer : State -> action -> State.
Variable authenticateUser : State -> list action * outcome unit.

Lemma dispatchAll_run (acts : list action) :
  forall st : store State,
    dispatchAll State reducer acts st
    = ((fold_left reducer acts (fst st), snd st ++ acts), Ok tt).
Proof.
  induction acts as [|a acts IH]; intros [s log]; simpl.
  - unfold ret. now rewrite app_nil_r.
  - unfold andThen, dispatch. simpl. rewrite IH. simpl.
    now rewrite <- app_assoc.
Qed.

Lemma dispatchAuthenticateUser_run (st : store State) :
  dispatchAuthenticateUser State reducer authenticateUser st
  = ((fold_left reducer (fst (authenticateUser (fst st))) (fst st),
      snd st ++ fst (authenticateUser (fst st))),
     snd (authenticateUser (fst st))).
Proof.
  unfold dispatchAuthenticateUser, andThen, getState, lift.
  rewrite dispatchAll_run. reflexivity.
Qed.

End StoreFacts.

(* ================================================================= *)
(** ** applyDefaults returns on well-shaped configurations *)

Section Returns.
Import Js Immutable.
Variable SIMPLE : string.
Variable selectIdentifier : obj -> outcome (option string).

Lemma trimStart_returns (v : value) :
  printable v = true -> exists s, trimStart v = Ok s.
Proof.
  unfold printable, trimStart. destruct (toString v) as [s| |]; try discriminate.
  intros _. now eexists.
Qed.

Lemma mergeDeep_defaults_returns (cfg : obj) :
  distinct (keys cfg) = true ->
  exists m0, mergeDeep (defaults SIMPLE) (VObj cfg) = Ok m0.
Proof.
  intros Hd. unfold mergeDeep. apply mergeIntoMap_returns; [assumption|].
  intros k v e _ He. exists v. apply deepMerger_over_scalar.
  simpl in He. destruct (k =? "publish_mode"); [|discriminate].
  now injection He as <-.
Qed.

Lemma slugDefault_returns (key : string) (dflt : value) (m : obj) :
  arrayIndex key = None ->
  match lookup "slug" m with
  | None | Some (VObj _) | Some (VList _) => True
  | _ => False
  end ->
  exists m',
    slugDefault key dflt m = Ok m'
    /\ match lookup "slug" m' with
       | None | Some (VObj _) | Some (VList _) => True
       | _ => False
       end.
Proof.
  intros Hidx H. unfold slugDefault, setInMap. simpl.
  destruct (lookup "slug" m) as [[| | b | n | s0 | l | s]|] eqn:Es; try contradiction.
  - unfold listGet, listSet. rewrite Hidx. simpl.
    eexists. split; [reflexivity|]. now rewrite lookup_set_same.
  - destruct (lookup key s) as [x|]; simpl.
    + destruct (truthy x); simpl.
      * exists m. now rewrite Es.
      * eexists. split; [reflexivity|]. now rewrite lookup_set_same.
    + eexists. split; [reflexivity|]. now rewrite lookup_set_same.
  - eexists. split; [reflexivity|]. now rewrite lookup_set_same.
Qed.

Lemma fileDefaults_returns (file : value) :
  fileShaped file = true -> exists r, fileDefaults file = Ok r.
Proof.
  destruct file as [| | b | n | s | l | f]; try discriminate.
  simpl. intros H. destruct (trimStart_returns _ H) as [p Hp].
  rewrite Hp. now eexists.
Qed.

Lemma collectionDefaults_returns (langs collection : value) :
  collectionShaped langs collection = true ->
  exists r, collectionDefaults selectIdentifier langs collection = Ok r.
Proof.
  destruct collection as [| | b | n | s | l | c]; try discriminate.
  unfold collectionShaped, collectionDefaults.
  destruct (truthy (get "folder" c)).
  - intros H. apply andb_true_iff in H. destruct H as [Hp Hl].
    apply negb_true_iff in Hl.
    destruct (trimStart_returns _ Hp) as [p Hp'].
    assert (Hfields : get "fields"
                        (if has "path" c && negb (has "media_folder" c)
                         then set "media_folder" (VStr "") c else c)
                      = get "fields" c).
    { destruct (has "path" c && negb (has "media_folder" c)); [|reflexivity].
      now rewrite get_set_other by discriminate. }
    rewrite Hfields, Hl. simpl. rewrite Hp'. now eexists.
  - destruct (truthy (get "files" c)); [|now eexists].
    destruct (get "files" c) as [| | b | n | s | fs | o]; try discriminate.
    intros H. destruct (mapM_returns fileDefaults fs) as [fs' Hfs'].
    + intros a Ha. apply fileDefaults_returns.
      now apply (proj1 (forallb_forall _ _) H).
    + rewrite Hfs'. now eexists.
Qed.

(** [applyDefaults] returns a configuration on every well-shaped input. *)
Lemma applyDefaults_returns (cfg : obj) :
  configShaped cfg = true ->
  exists out, applyDefaults SIMPLE selectIdentifier cfg = Ok out.
Proof.
  intros H. unfold configShaped in H.
  apply andb_true_iff in H. destruct H as [H Hcols].
  apply andb_true_iff in H. destruct H as [H Hslug].
  apply andb_true_iff in H. destruct H as [Hd Hmedia].
  destruct (mergeDeep_defaults_returns cfg Hd) as [m0 E0].
  pose proof (mergeDeep_defaults SIMPLE cfg m0 Hd E0) as K0.
  unfold applyDefaults. rewrite E0. cbn [bind].
  remember (if negb (truthy (get "display_url" m0)) && truthy (get "site_url" m0)
            then set "display_url" (get "site_url" m0) m0 else m0) as m1 eqn:E1.
  assert (K1 : forall k, k <> "publish_mode" -> k <> "display_url" ->
                         lookup k m1 = lookup k cfg).
  { intros k H1 H2. rewrite <- (K0 k H1). subst m1.
    destruct (negb (truthy (get "display_url" m0)) && truthy (get "site_url" m0));
      [now apply lookup_set_other | reflexivity]. }
  assert (Hm : get "media_folder" m1 = get "media_folder" cfg).
  { unfold get. now rewrite K1 by discriminate. }
  destruct (trimStart_returns _ Hmedia) as [trimmed Htrim].
  rewrite Hm, Htrim. cbn [bind].
  remember (if negb (truthy (get "public_folder" m1))
            then set "public_folder" (VStr ("/" ++ trimmed)) m1 else m1) as m2 eqn:E2.
  assert (K2 : forall k, k <> "publish_mode" -> k <> "display_url" ->
                         k <> "public_folder" -> lookup k m2 = lookup k cfg).
  { intros k H1 H2 H3. subst m2.
    destruct (negb (truthy (get "public_folder" m1)));
      [rewrite lookup_set_other by assumption|]; now apply K1. }
  assert (S2 : match lookup "slug" m2 with
               | None | Some (VObj _) | Some (VList _) => True
               | _ => False
               end).
  { rewrite K2 by discriminate.
    destruct (lookup "slug" cfg) as [[| | | | | l | s]|]; try discriminate; exact I. }
  destruct (slugDefault_returns "encoding" (VStr "unicode") m2 eq_refl S2)
    as (m3 & E3 & S3).
  destruct (slugDefault_returns "clean_accents" (VBool false) m3 eq_refl S3)
    as (m4 & E4 & S4).
  destruct (slugDefault_returns "sanitize_replacement" (VStr "-") m4 eq_refl S4)
    as (m5 & E5 & _).
  assert (K5 : forall k, k <> "publish_mode" -> k <> "display_url" ->
                         k <> "public_folder" -> k <> "slug" ->
                         lookup k m5 = lookup k cfg).
  { intros k H1 H2 H3 H4. rewrite <- (K2 k H1 H2 H3).
    destruct (slugDefault_spec "encoding" _ _ _ eq_refl E3) as (O3 & _).
    destruct (slugDefault_spec "clean_accents" _ _ _ eq_refl E4) as (O4 & _).
    destruct (slugDefault_spec "sanitize_replacement" _ _ _ eq_refl E5) as (O5 & _).
    now rewrite O5, O4, O3. }
  rewrite E3. cbn [bind]. rewrite E4. cbn [bind]. rewrite E5. cbn [bind].
  assert (Hc : get "collections" m5 = get "collections" cfg).
  { unfold get. now rewrite K5 by discriminate. }
  assert (Hl : get "languages" m5 = get "languages" cfg).
  { unfold get. now rewrite K5 by discriminate. }
  rewrite Hc, Hl.
  destruct (get "collections" cfg) as [| | b | n | s | cs | o]; try discriminate.
  destruct (mapM_returns (collectionDefaults selectIdentifier (get "languages" cfg)) cs)
    as [cs' Hcs'].
  - intros a Ha. apply collectionDefaults_returns.
    now apply (proj1 (forallb_forall _ _) Hcols).
  - rewrite Hcs'. now eexists.
Qed.

End Returns.

(* ================================================================= *)
(** ** The properties of the configuration pipeline *)

Section Merge.
Import Js Immutable.

(** What [mergePreloadedConfig] does with two Maps is the deep merge of
    the loaded one into the preloaded one. *)
Lemma mergePreloadedConfig_maps (pre loaded : obj) :
  mergePreloadedConfig (Some pre) (VObj loaded) = deepMerger (VObj pre) (VObj loaded).
Proof. reflexivity. Qed.

(** That the loaded value wins on every key collision does not hold
    where the loaded document has a list and the preloaded configuration
    an object: the items of the list are read as [[key, value]] entries
    and merged into the object.  Preloaded [{backend: {name: "github"}}]
    and loaded [{backend: [null]}] give the preloaded configuration back,
    and loaded [{backend: [["name", "gitlab"]]}] gives
    [{backend: {name: "gitlab"}}]: either way the value of the loaded
    document is not in the result. *)
Lemma mergePreloadedConfig_list_loses :
  mergePreloadedConfig (Some [("backend", VObj [("name", VStr "github")])])
                       (VObj [("backend", VList [VNull])])
  = Ok (VObj [("backend", VObj [("name", VStr "github")])])
  /\ mergePreloadedConfig (Some [("backend", VObj [("name", VStr "github")])])
                          (VObj [("backend", VList [VList [VStr "name"; VStr "gitlab"]])])
     = Ok (VObj [("backend", VObj [("name", VStr "gitlab")])])
  /\ ~ (forall (pre loaded : obj) (merged : value),
          uniqueKeys (VObj loaded) = true ->
          mergePreloadedConfig (Some pre) (VObj loaded) = Ok merged ->
          forall k v e,
            lookup k loaded = Some v ->
            lookup k pre = Some e ->
            forall path leaf,
              valueAt path v = Some leaf ->
              isCollection leaf = false ->
              valueAt (Key k :: path) merged = Some leaf).
Proof.
  split; [reflexivity|]. split; [reflexivity|].
  intros H.
  specialize (H [("backend", VObj [("name", VStr "github")])]
                [("backend", VList [VNull])] _ eq_refl eq_refl
                "backend" _ _ eq_refl eq_refl [Index 0] VNull eq_refl eq_refl).
  discriminate H.
Qed.

(** C3, amended.  Merging the loaded document into a preloaded
    configuration is a deep merge in which the loaded values win, as long
    as no list of one document meets an object of the other.  On the
    example, preloaded [{a: 1, b: 2}] and loaded [{b: 3, c: 4}] give
    [{a: 1, b: 3, c: 4}]; in depth, preloaded
    [{backend: {name: "github", branch: "main"}}] and loaded
    [{backend: {name: "gitlab"}}] give
    [{backend: {name: "gitlab", branch: "main"}}]; and lists are merged
    position by position, so that preloaded [{languages: [en, fr, de]}]
    and loaded [{languages: [nl]}] give [{languages: [nl, fr, de]}].  In
    general, for a
    loaded document with distinct keys and two documents of the same
    kinds, the merge returns a document in which: every leaf of the
    loaded document sits at the position it has there; on a key that both
    have, the merged value is the loaded value, unless both values are
    collections, which are merged in depth by the same rule; a key that
    only the loaded document has carries the loaded value; and at every
    position that the loaded document does not have, at any depth, the
    merged document holds what the preloaded configuration holds there. *)
Theorem mergePreloadedConfig_loaded_wins :
  mergePreloadedConfig (Some [("a", VNum 1); ("b", VNum 2)])
                       (VObj [("b", VNum 3); ("c", VNum 4)])
  = Ok (VObj [("a", VNum 1); ("b", VNum 3); ("c", VNum 4)])
  /\
  mergePreloadedConfig
    (Some [("backend", VObj [("name", VStr "github"); ("branch", VStr "main")])])
    (VObj [("backend", VObj [("name", VStr "gitlab")])])
  = Ok (VObj [("backend", VObj [("name", VStr "gitlab"); ("branch", VStr "main")])])
  /\
  mergePreloadedConfig
    (Some [("languages", VList [VStr "en"; VStr "fr"; VStr "de"])])
    (VObj [("languages", VList [VStr "nl"])])
  = Ok (VObj [("languages", VList [VStr "nl"; VStr "fr"; VStr "de"])])
  /\
  forall (pre loaded : obj),
    uniqueKeys (VObj loaded) = true ->
    sameKinds (VObj pre) (VObj loaded) = true ->
    (exists merged, mergePreloadedConfig (Some pre) (VObj loaded) = Ok merged)
    /\
    forall merged : value,
      mergePreloadedConfig (Some pre) (VObj loaded) = Ok merged ->
      (forall path leaf,
          valueAt path (VObj loaded) = Some leaf ->
          isCollection leaf = false ->
          valueAt path merged = Some leaf)
      /\ (forall k v e,
            lookup k loaded = Some v ->
            lookup k pre = Some e ->
            exists x,
              valueAt [Key k] merged = Some x
              /\ deepMerger e v = Ok x
              /\ (isCollection e && isCollection v = false -> x = v))
      /\ (forall k v,
            lookup k loaded = Some v ->
            lookup k pre = None ->
            valueAt [Key k] merged = Some v)
      /\ (forall k,
            lookup k loaded = None ->
            valueAt [Key k] merged = lookup k pre)
      /\ (forall path,
            absentFrom path (VObj loaded) = true ->
            valueAt path merged = valueAt path (VObj pre)).
Proof.
  split; [reflexivity|]. split; [reflexivity|]. split; [reflexivity|].
  intros pre loaded Hu Hs. rewrite mergePreloadedConfig_maps.
  split; [now apply deepMerger_returns|].
  intros merged H.
  pose proof (deepMerger_keeps_leaves (VObj loaded) Hu (VObj pre) merged Hs H) as Hleaves.
  pose proof (deepMerger_keeps_absent (VObj loaded) Hu (VObj pre) merged H) as Habsent.
  simpl in H. bind_ok H. injection H as <-. rename r into m.
  destruct (uniqueKeys_obj _ Hu) as [Hd _].
  split; [exact Hleaves|]. split; [|split; [|split]].
  - intros k v e Hv He.
    pose proof (mergeIntoMap_lookup _ _ _ _ Hd E _ _ Hv) as Hk.
    rewrite He in Hk. destruct Hk as (x & Hx & Hl).
    exists x. simpl. rewrite Hl. repeat split; try assumption.
    intros Hc. apply andb_false_iff in Hc. destruct Hc as [Hc|Hc].
    + rewrite deepMerger_over_scalar in Hx by assumption. congruence.
    + rewrite deepMerger_scalar in Hx by assumption. congruence.
  - intros k v Hv Hnone.
    pose proof (mergeIntoMap_lookup _ _ _ _ Hd E _ _ Hv) as Hk.
    rewrite Hnone in Hk. simpl. now rewrite Hk.
  - intros k Hnone. simpl.
    rewrite (mergeIntoMap_untouched _ _ _ _ _ Hnone E).
    now destruct (lookup k pre).
  - exact Habsent.
Qed.

Lemma mergePreloadedConfig_loaded_wins_witness :
  uniqueKeys (VObj [("backend", VObj [("name", VStr "gitlab")])]) = true
  /\ sameKinds (VObj [("backend", VObj [("name", VStr "github"); ("branch", VStr "main")])])
               (VObj [("backend", VObj [("name", VStr "gitlab")])]) = true
  /\ absentFrom [Key "backend"; Key "branch"]
                (VObj [("backend", VObj [("name", VStr "gitlab")])]) = true
  /\ valueAt [Key "backend"; Key "branch"]
             (VObj [("backend", VObj [("name", VStr "gitlab"); ("branch", VStr "main")])])
     = Some (VStr "main")
  /\ valueAt [Key "backend"; Key "name"]
             (VObj [("backend", VObj [("name", VStr "gitlab"); ("branch", VStr "main")])])
     = Some (VStr "gitlab").
Proof.
  split; [reflexivity|]. split; [reflexivity|]. split; [reflexivity|].
  pose proof (proj2 (proj2 (proj2 (proj2 mergePreloadedConfig_loaded_wins))
                       [("backend", VObj [("name", VStr "github"); ("branch", VStr "main")])]
                       [("backend", VObj [("name", VStr "gitlab")])]
                       eq_refl eq_refl)
                (VObj [("backend", VObj [("name", VStr "gitlab"); ("branch", VStr "main")])])
                eq_refl) as (Hleaves & _ & _ & _ & Habsent).
  split.
  - exact (Habsent [Key "backend"; Key "branch"] eq_refl).
  - exact (Hleaves [Key "backend"; Key "name"] (VStr "gitlab") eq_refl eq_refl).
Defined.

End Merge.

Section Defaults.
Import Js Immutable.

(** The top-level keys that the defaults before the collections never
    touch are those of the configuration. *)
Lemma applyDefaults_top_level (SIMPLE : string)
  (selectIdentifier : obj -> outcome (option string)) (cfg out : obj) :
  distinct (keys cfg) = true ->
  applyDefaults SIMPLE selectIdentifier cfg = Ok out ->
  exists m1 m2 m5 cols,
    out = set "collections" cols m5
    /\ (forall k, k <> "publish_mode" -> k <> "display_url" -> lookup k m1 = lookup k cfg)
    /\ (exists trimmed,
          trimStart (get "media_folder" m1) = Ok trimmed
          /\ m2 = if negb (truthy (get "public_folder" m1))
                  then set "public_folder" (VStr ("/" ++ trimmed)) m1
                  else m1)
    /\ (m3 <- slugDefault "encoding" (VStr "unicode") m2 ;;
        m4 <- slugDefault "clean_accents" (VBool false) m3 ;;
        slugDefault "sanitize_replacement" (VStr "-") m4) = Ok m5.
Proof.
  intros Hd H.
  destruct (applyDefaults_stages _ _ _ _ H)
    as (m0 & m1 & m2 & m5 & cols & E0 & E1 & E2 & E5 & _ & ->).
  exists m1, m2, m5, cols. repeat split; try assumption.
  intros k H1 H2. rewrite (E1 k H2). now apply (mergeDeep_defaults SIMPLE cfg).
Qed.




(** That a slug sub-key present in the input keeps its value does not
    hold for an empty replacement: [slug: {sanitize_replacement: ""}]
    comes out with ['-'].  And that an absent sub-key is filled does not
    hold for a slug that is a list: [slug: []] comes out as it is, since
    a List ignores a key that is no index. *)
Lemma applyDefaults_slug_overwritten :
  ~ (forall (cfg out : obj) (key : string) (v : value),
        distinct (keys cfg) = true ->
        applyDefaults "simple" slugIdentifier cfg = Ok out ->
        In key ["encoding"; "clean_accents"; "sanitize_replacement"] ->
        valueAt [Key "slug"; Key key] (VObj cfg) = Some v ->
        valueAt [Key "slug"; Key key] (VObj out) = Some v)
  /\ ~ (forall (cfg out : obj),
          distinct (keys cfg) = true ->
          applyDefaults "simple" slugIdentifier cfg = Ok out ->
          valueAt [Key "slug"; Key "encoding"] (VObj cfg) = None ->
          valueAt [Key "slug"; Key "encoding"] (VObj out) = Some (VStr "unicode"))
  /\ applyDefaults "simple" slugIdentifier [("slug", VList []); ("collections", VList [])]
     = Ok [("publish_mode", VStr "simple"); ("slug", VList []);
           ("collections", VList []); ("public_folder", VStr "/")].
Proof.
  split; [|split].
  - intros H.
    specialize (H [("slug", VObj [("sanitize_replacement", VStr "")]);
                   ("collections", VList [])]
                  _ "sanitize_replacement" (VStr "") eq_refl eq_refl).
    simpl in H. specialize (H (or_intror (or_intror (or_introl eq_refl))) eq_refl).
    discriminate H.
  - intros H.
    specialize (H [("slug", VList []); ("collections", VList [])] _
                  eq_refl eq_refl eq_refl).
    discriminate H.
  - reflexivity.
Qed.

(** C9, amended.  [applyDefaults] returns a configuration on every
    well-shaped input, and whenever it returns one: if the input has no
    [slug] or its [slug] is an object, each of [slug.encoding],
    [slug.clean_accents] and [slug.sanitize_replacement] holds its default
    (['unicode'], [false], ['-']) if the input lacks it or holds a falsy
    value there, and keeps the input value if that value is truthy; if
    the [slug] of the input is a list, the output holds that list and no
    sub-key is filled; and on no other [slug] does [applyDefaults]
    return. *)
Theorem applyDefaults_slug (SIMPLE : string)
  (selectIdentifier : obj -> outcome (option string))
  (cfg : obj) (key : string) (dflt : value) :
  distinct (keys cfg) = true ->
  In (key, dflt) [("encoding", VStr "unicode"); ("clean_accents", VBool false);
                  ("sanitize_replacement", VStr "-")] ->
  (configShaped cfg = true ->
   exists out, applyDefaults SIMPLE selectIdentifier cfg = Ok out)
  /\
  forall out,
    applyDefaults SIMPLE selectIdentifier cfg = Ok out ->
    match lookup "slug" cfg with
    | None | Some (VObj _) =>
        valueAt [Key "slug"; Key key] (VObj out)
        = Some (match valueAt [Key "slug"; Key key] (VObj cfg) with
                | Some v => if truthy v then v else dflt
                | None => dflt
                end)
    | Some (VList items) => lookup "slug" out = Some (VList items)
    | Some _ => False
    end.
Proof.
  intros Hd Hin. split; [apply applyDefaults_returns|].
  intros out H.
  destruct (applyDefaults_top_level _ _ _ _ Hd H) as (m1 & m2 & m5 & cols & -> & E1 & E2 & E5).
  assert (Hslug : lookup "slug" m2 = lookup "slug" cfg).
  { rewrite <- (E1 "slug") by discriminate.
    destruct E2 as (trimmed & _ & ->).
    destruct (negb (truthy (get "public_folder" m1)));
      [now rewrite lookup_set_other by discriminate | reflexivity]. }
  assert (Hin2 : valueAt [Key "slug"; Key key] (VObj m2)
                 = valueAt [Key "slug"; Key key] (VObj cfg)).
  { simpl. now rewrite Hslug. }
  assert (Hout : valueAt [Key "slug"; Key key] (VObj (set "collections" cols m5))
                 = valueAt [Key "slug"; Key key] (VObj m5)).
  { simpl. now rewrite lookup_set_other by discriminate. }
  pose proof (slugDefaults_spec _ _ E5) as S. rewrite Hslug in S.
  destruct (lookup "slug" cfg) as [[| | b | n | s0 | l | s]|]; try contradiction.
  - now rewrite lookup_set_other by discriminate.
  - rewrite Hout, <- Hin2. now apply S.
  - rewrite Hout, <- Hin2. now apply S.
Qed.

Lemma applyDefaults_slug_witness :
  distinct (keys [("slug", VObj [("encoding", VStr "ascii")]); ("collections", VList [])]) = true
  /\ exists out,
       applyDefaults "simple" slugIdentifier
         [("slug", VObj [("encoding", VStr "ascii")]); ("collections", VList [])] = Ok out
       /\ valueAt [Key "slug"; Key "encoding"] (VObj out) = Some (VStr "ascii").
Proof.
  split; [reflexivity|].
  eexists. split; [reflexivity|].
  apply (proj2 (applyDefaults_slug "simple" slugIdentifier
                  [("slug", VObj [("encoding", VStr "ascii")]); ("collections", VList [])]
                  "encoding" (VStr "unicode") eq_refl (or_introl eq_refl)) _ eq_refl).
Defined.

End Defaults.

Section Collections.
Import Js Immutable.

(** C7. [applyDefaults] strips the leading slashes of the folder of every
    folder collection and of the path of every file of a files collection:
    it returns a configuration on every well-shaped input, and whenever it
    returns one, the collection at each position of the output has the
    folder of the input collection without its leading slashes, or has
    each of its files with the path without its leading slashes and is
    otherwise as it was.  A stripped path has no leading slash, and a path
    without a leading slash is not changed.  A collection with
    [folder: "/posts"] comes out with [folder: "posts"]. *)
Theorem applyDefaults_strips_leading_slash (SIMPLE : string)
  (selectIdentifier : obj -> outcome (option string)) :
  (exists out,
      applyDefaults SIMPLE selectIdentifier
        [("collections", VList [VObj [("folder", VStr "/posts")]])] = Ok out
      /\ get "collections" out = VList [VObj [("folder", VStr "posts")]])
  /\ (forall s, noLeadingSlash (stripSlashes s) = true)
  /\ (forall s, noLeadingSlash s = true -> stripSlashes s = s)
  /\
  forall (cfg : obj) (cs : list value),
    distinct (keys cfg) = true ->
    get "collections" cfg = VList cs ->
    (configShaped cfg = true ->
     exists out, applyDefaults SIMPLE selectIdentifier cfg = Ok out)
    /\
    forall out,
      applyDefaults SIMPLE selectIdentifier cfg = Ok out ->
      exists cs',
        get "collections" out = VList cs'
        /\ length cs' = length cs
        /\ forall i c,
             nth_error cs i = Some (VObj c) ->
             (forall f,
                 get "folder" c = VStr f ->
                 f <> "" ->
                 exists c',
                   nth_error cs' i = Some (VObj c')
                   /\ get "folder" c' = VStr (stripSlashes f))
             /\ (forall fs,
                   truthy (get "folder" c) = false ->
                   get "files" c = VList fs ->
                   exists fs',
                     nth_error cs' i = Some (VObj (set "files" (VList fs') c))
                     /\ length fs' = length fs
                     /\ forall j file p,
                          nth_error fs j = Some (VObj file) ->
                          get "file" file = VStr p ->
                          nth_error fs' j
                          = Some (VObj (set "file" (VStr (stripSlashes p)) file))).
Proof.
  split; [eexists; split; reflexivity|].
  split; [exact stripSlashes_noLeadingSlash|].
  split; [exact stripSlashes_fixed|].
  intros cfg cs Hd Hcs. split; [apply applyDefaults_returns|].
  intros out H.
  destruct (applyDefaults_collections _ _ _ _ _ Hd H Hcs) as (cs' & Hout & Hmap).
  destruct (mapM_nth _ _ _ Hmap) as [Hlen Hnth].
  exists cs'. split; [assumption|]. split; [assumption|].
  intros i c Hi. destruct (Hnth i _ Hi) as (b & Hb & Hrun). split.
  - intros f Hf Hne.
    destruct (collectionDefaults_folder _ _ _ _ _ Hf Hne Hrun) as (c' & -> & Hc').
    now exists c'.
  - intros fs Hfalsy Hfs.
    destruct (collectionDefaults_files _ _ _ _ _ Hfalsy Hfs Hrun) as (fs' & -> & Hfiles).
    destruct (mapM_nth _ _ _ Hfiles) as [Hlen' Hnth'].
    exists fs'. split; [assumption|]. split; [assumption|].
    intros j file p Hj Hp. destruct (Hnth' j _ Hj) as (b' & Hb' & Hrun').
    rewrite (fileDefaults_path _ _ Hp) in Hrun'. congruence.
Qed.

Lemma applyDefaults_strips_leading_slash_witness :
  distinct (keys [("collections",
                   VList [VObj [("files", VList [VObj [("file", VStr "/about.md")]])]])]) = true
  /\ exists out fs',
       applyDefaults "simple" slugIdentifier
         [("collections",
           VList [VObj [("files", VList [VObj [("file", VStr "/about.md")]])]])] = Ok out
       /\ get "collections" out
          = VList [VObj (set "files" (VList fs')
                           [("files", VList [VObj [("file", VStr "/about.md")]])])]
       /\ nth_error fs' 0 = Some (VObj [("file", VStr "about.md")]).
Proof.
  split; [reflexivity|].
  destruct (proj2 (proj2 (proj2 (proj2 (applyDefaults_strips_leading_slash
                                          "simple" slugIdentifier)))
                     [("collections",
                       VList [VObj [("files", VList [VObj [("file", VStr "/about.md")]])]])]
                     _ eq_refl eq_refl) _ eq_refl)
    as (cs' & Hout & _ & Hcs).
  destruct (proj2 (Hcs 0 _ eq_refl) _ eq_refl eq_refl) as (fs' & Hfs' & _ & Hfile).
  eexists. exists fs'. split; [reflexivity|]. split.
  - injection Hout as <-. simpl in Hfs'. injection Hfs' as Hfs'.
    simpl. now rewrite Hfs'.
  - exact (Hfile 0 _ "/about.md" eq_refl eq_refl).
Defined.

(** C5. With languages configured, the fields of a folder collection are
    expanded one for one: a field marked [translate] whose name is neither
    the identifier field nor ['body'] becomes one field of widget
    ['object'] with the same name and without the marker, whose [fields]
    are the copies of the original field, one per language, each without
    the marker, named with the language code and labelled with the code in
    upper case; every other field is left as it is.  With languages
    [en, fr] the field [{name: "title", translate: true}] becomes a single
    field with the sub-fields [en] and [fr] labelled [EN] and [FR]. *)
Theorem addLanguageFields_expands (codes : list string) (identifier : option string) :
  forallb allAscii codes = true ->
  (* one field out for each field in *)
  (forall items,
      addLanguageFields (VList (map VObj items)) (VList (map VStr codes)) identifier
      = Ok (map (expandField codes identifier) items))
  (* the fields that pass through *)
  /\ (forall o,
        truthy (get "translate" o) = false
        \/ get "name" o = match identifier with Some s => VStr s | None => VUndef end
        \/ get "name" o = VStr "body" ->
        expandField codes identifier o = VObj o)
  (* the wrapper *)
  /\ (forall o,
        translated identifier o = true ->
        exists w,
          expandField codes identifier o = VObj w
          /\ lookup "name" w = lookup "name" o
          /\ lookup "translate" w = None
          /\ lookup "widget" w = Some (VStr "object")
          /\ lookup "fields" w = Some (VList (map (languageCopy o) codes))
          /\ forall k, k <> "translate" -> k <> "widget" -> k <> "fields" ->
                       lookup k w = lookup k o)
  (* the copy for one language *)
  /\ (forall o code,
        exists sub,
          languageCopy o code = VObj sub
          /\ lookup "name" sub = Some (VStr code)
          /\ lookup "label" sub = Some (VStr (upperString code))
          /\ lookup "translate" sub = None
          /\ forall k, k <> "translate" -> k <> "label" -> k <> "name" ->
                       lookup k sub = lookup k o)
  (* inside applyDefaults *)
  /\ (forall selectIdentifier c f items,
        get "folder" c = VStr f ->
        f <> "" ->
        get "fields" c = VList (map VObj items) ->
        selectIdentifier
          (if has "path" c && negb (has "media_folder" c)
           then set "media_folder" (VStr "") c else c) = Ok identifier ->
        exists c',
          collectionDefaults selectIdentifier (VList (map VStr codes)) (VObj c) = Ok (VObj c')
          /\ get "fields" c' = VList (map (expandField codes identifier) items))
  (* the example *)
  /\ addLanguageFields
       (VList [VObj [("name", VStr "title"); ("translate", VBool true)]])
       (VList [VStr "en"; VStr "fr"]) (Some "slug")
     = Ok [VObj [("name", VStr "title"); ("widget", VStr "object");
                 ("fields", VList [VObj [("name", VStr "en"); ("label", VStr "EN")];
                                   VObj [("name", VStr "fr"); ("label", VStr "FR")]])]].
Proof.
  intros Hascii.
  split; [|split; [|split; [|split; [|split]]]].
  - intros items. unfold addLanguageFields.
    now rewrite (reduce_expand codes identifier items Hascii []).
  - intros o H. unfold expandField, translated.
    destruct H as [H|[H|H]].
    + now rewrite H.
    + rewrite H. destruct identifier as [s|]; simpl.
      * rewrite String.eqb_refl. simpl. now rewrite andb_false_r.
      * now rewrite andb_false_r.
    + rewrite H. simpl. now rewrite andb_false_r.
  - intros o H. unfold expandField. rewrite H. unfold wrapperField.
    eexists. split; [reflexivity|].
    repeat split.
    + rewrite !lookup_set_other by discriminate.
      now rewrite lookup_omit_other by discriminate.
    + rewrite !lookup_set_other by discriminate. apply lookup_omit_same.
    + rewrite lookup_set_other by discriminate. apply lookup_set_same.
    + apply lookup_set_same.
    + intros k H1 H2 H3. rewrite !lookup_set_other by assumption.
      now apply lookup_omit_other.
  - intros o code. unfold languageCopy. eexists. split; [reflexivity|].
    repeat split.
    + apply lookup_set_same.
    + rewrite lookup_set_other by discriminate. apply lookup_set_same.
    + rewrite !lookup_set_other by discriminate. apply lookup_omit_same.
    + intros k H1 H2 H3. rewrite !lookup_set_other by assumption.
      now apply lookup_omit_other.
  - intros selectIdentifier c f items Hf Hne Hfields Hsel.
    unfold collectionDefaults. rewrite Hf.
    assert (Ht : truthy (VStr f) = true).
    { simpl. now destruct (String.eqb_spec f ""). }
    rewrite Ht.
    remember (if has "path" c && negb (has "media_folder" c)
              then set "media_folder" (VStr "") c else c) as c1 eqn:Ec1.
    assert (Hfields1 : get "fields" c1 = VList (map VObj items)).
    { subst c1. destruct (has "path" c && negb (has "media_folder" c)); [|assumption].
      now rewrite get_set_other by discriminate. }
    rewrite Hfields1. simpl. rewrite Hsel. simpl.
    rewrite (reduce_expand codes identifier items Hascii []). simpl.
    eexists. split; [reflexivity|].
    rewrite get_set_other by discriminate. apply get_set_same.
  - reflexivity.
Qed.

Lemma addLanguageFields_expands_witness :
  forallb allAscii ["en"; "fr"] = true
  /\ addLanguageFields
       (VList (map VObj [[("name", VStr "slug"); ("translate", VBool true)];
                         [("name", VStr "title"); ("translate", VBool true)]]))
       (VList (map VStr ["en"; "fr"])) (Some "slug")
     = Ok (map (expandField ["en"; "fr"] (Some "slug"))
             [[("name", VStr "slug"); ("translate", VBool true)];
              [("name", VStr "title"); ("translate", VBool true)]]).
Proof.
  split; [reflexivity|].
  exact (proj1 (addLanguageFields_expands ["en"; "fr"] (Some "slug") eq_refl) _).
Defined.

End Collections.

Section Load.
Import Js Immutable.
Variable SIMPLE : string.
Variable selectIdentifier : obj -> outcome (option string).
Variable safeLoad : string -> outcome value.
Variable validateConfig : value -> outcome unit.
Variable State : Type.
Variable reducer : State -> action -> State.
Variable selectConfig : State -> option obj.
Variable authenticateUser : State -> list action * outcome unit.

(** A run of [loadConfig] on a page without injected configuration. *)
Lemma loadConfig_run (g : page) (st : store State) :
  truthy (CMS_CONFIG g) = false ->
  loadConfig SIMPLE selectIdentifier safeLoad validateConfig State reducer
             selectConfig authenticateUser g st
  = let s1 := reducer (fst st) CONFIG_REQUEST in
    let log1 := snd st ++ [CONFIG_REQUEST] in
    match buildConfig SIMPLE selectIdentifier safeLoad validateConfig g (selectConfig s1) with
    | Ok config =>
        let s2 := reducer s1 (CONFIG_SUCCESS (VObj config)) in
        let s3 := fold_left reducer (fst (authenticateUser s2)) s2 in
        let log3 := (log1 ++ [CONFIG_SUCCESS (VObj config)]) ++ fst (authenticateUser s2) in
        match snd (authenticateUser s2) with
        | Throw err => ((reducer s3 (CONFIG_FAILURE err), log3 ++ [CONFIG_FAILURE err]), Throw err)
        | r => ((s3, log3), r)
        end
    | Throw err => ((reducer s1 (CONFIG_FAILURE err), log1 ++ [CONFIG_FAILURE err]), Throw err)
    | Beyond => ((s1, log1), Beyond)
    end.
Proof.
  intros Hno. unfold loadConfig. rewrite Hno.
  unfold tryCatch, configDidLoad, dispatchAuthenticateUser, andThen, dispatch,
    getState, lift, throw, configLoading, configLoaded, configFailed.
  cbn [fst snd].
  destruct (buildConfig SIMPLE selectIdentifier safeLoad validateConfig g
              (selectConfig (reducer (fst st) CONFIG_REQUEST))) as [config|err|];
    [|reflexivity|reflexivity].
  rewrite dispatchAll_run. cbn [fst snd].
  destruct (snd (authenticateUser _)) as [[]|err|]; reflexivity.
Qed.

(** A run whose block throws before anything is published. *)
Lemma loadConfig_run_throw (g : page) (st : store State) (err : error) :
  truthy (CMS_CONFIG g) = false ->
  buildConfig SIMPLE selectIdentifier safeLoad validateConfig g
    (selectConfig (reducer (fst st) CONFIG_REQUEST)) = Throw err ->
  loadConfig SIMPLE selectIdentifier safeLoad validateConfig State reducer
             selectConfig authenticateUser g st
  = ((reducer (reducer (fst st) CONFIG_REQUEST) (CONFIG_FAILURE err),
      snd st ++ [CONFIG_REQUEST; CONFIG_FAILURE err]),
     Throw err).
Proof.
  intros Hno Hthrow.
  rewrite (loadConfig_run g st Hno). cbv zeta. rewrite Hthrow.
  now rewrite <- app_assoc.
Qed.

(** X20. The block that [loadConfig] tries throws exactly when one of its
    steps does, with the error of that step: the fetch and parse of the
    file, the merge, the validation (with the conversion before it), the
    defaults, in this order. *)
Lemma buildConfig_step_throws (g : page) (pre : option obj) (err : error) :
  let loadedConfig :=
    if skipsConfigFile pre then Ok (VObj [])
    else getConfig safeLoad g (getConfigUrl g) (isPreloaded pre) in
  buildConfig SIMPLE selectIdentifier safeLoad validateConfig g pre = Throw err
  <->
  loadedConfig = Throw err
  \/ (exists l, loadedConfig = Ok l /\ mergePreloadedConfig pre l = Throw err)
  \/ (exists l m,
        loadedConfig = Ok l /\ mergePreloadedConfig pre l = Ok m
        /\ (toJS m = Throw err \/ (toJS m = Ok m /\ validateConfig m = Throw err)))
  \/ (exists l m,
        loadedConfig = Ok l /\ mergePreloadedConfig pre l = Ok (VObj m)
        /\ validateConfig (VObj m) = Ok tt
        /\ applyDefaults SIMPLE selectIdentifier m = Throw err).
Proof.
  intros loadedConfig. unfold buildConfig. fold loadedConfig. clearbody loadedConfig.
  split.
  - intros H.
    destruct loadedConfig as [l|e|]; simpl in H; [|left; congruence|discriminate].
    destruct (mergePreloadedConfig pre l) as [m|e|] eqn:Em; simpl in H;
      [|right; left; exists l; split; [reflexivity | congruence]|discriminate].
    right. right.
    destruct (toJS m) as [js|e|] eqn:Ej; simpl in H;
      [|left; exists l, m; split; [reflexivity|split; [assumption|left; congruence]]|discriminate].
    assert (js = m) by (destruct m; simpl in Ej; congruence). subst js.
    destruct (validateConfig m) as [[]|e|] eqn:Ev; simpl in H;
      [|left; exists l, m; split; [reflexivity|split; [assumption|right; split; congruence]]|discriminate].
    destruct m as [| | b | n | s | items | entries]; try discriminate H.
    right. exists l, entries. repeat split; assumption.
  - intros [H|[(l & Hl & H)|[(l & m & Hl & Hm & H)|(l & m & Hl & Hm & Hv & H)]]].
    + now rewrite H.
    + rewrite Hl. simpl. now rewrite H.
    + rewrite Hl. simpl. rewrite Hm. simpl. destruct H as [H|[H1 H2]].
      * now rewrite H.
      * rewrite H1. simpl. now rewrite H2.
    + rewrite Hl. simpl. rewrite Hm. simpl. now rewrite Hv.
Qed.

(** C10. If the preloaded configuration has [load_config_file] equal to
    [false], [loadConfig] does not depend on the page beyond the absence
    of an injected configuration (so neither on what a fetch would
    return); the loaded document is the empty object, whose merge leaves
    the preloaded configuration as it is; and when the preloaded
    configuration passes validation, the configuration that is published
    is [applyDefaults] of the preloaded configuration: CONFIG_REQUEST is
    followed by CONFIG_SUCCESS with that configuration, and then by what
    [authenticateUser] dispatches (and CONFIG_FAILURE if it throws). *)
Theorem loadConfig_load_config_file_false (g : page) (st : store State)
  (pre config : obj) :
  truthy (CMS_CONFIG g) = false ->
  selectConfig (reducer (fst st) CONFIG_REQUEST) = Some pre ->
  get "load_config_file" pre = VBool false ->
  validateConfig (VObj pre) = Ok tt ->
  applyDefaults SIMPLE selectIdentifier pre = Ok config ->
  let s2 := reducer (reducer (fst st) CONFIG_REQUEST) (CONFIG_SUCCESS (VObj config)) in
  snd (fst (loadConfig SIMPLE selectIdentifier safeLoad validateConfig State reducer
                       selectConfig authenticateUser g st))
  = snd st ++ [CONFIG_REQUEST; CONFIG_SUCCESS (VObj config)]
      ++ fst (authenticateUser s2)
      ++ match snd (authenticateUser s2) with
         | Throw err => [CONFIG_FAILURE err]
         | _ => []
         end
  /\ (forall g',
        truthy (CMS_CONFIG g') = false ->
        loadConfig SIMPLE selectIdentifier safeLoad validateConfig State reducer
                   selectConfig authenticateUser g' st
        = loadConfig SIMPLE selectIdentifier safeLoad validateConfig State reducer
                     selectConfig authenticateUser g st)
  /\ mergePreloadedConfig (Some pre) (VObj []) = Ok (VObj pre).
Proof.
  intros Hno Hpre Hflag Hvalid Hdefaults s2.
  assert (Hbuild : forall g0,
             buildConfig SIMPLE selectIdentifier safeLoad validateConfig g0 (Some pre)
             = Ok config).
  { intros g0. unfold buildConfig, skipsConfigFile. rewrite Hflag. simpl.
    rewrite Hvalid. simpl. exact Hdefaults. }
  split.
  - rewrite (loadConfig_run g st Hno). cbv zeta. rewrite Hpre, Hbuild. fold s2.
    destruct (snd (authenticateUser s2)) as [[]|err|]; cbn [fst snd];
      rewrite <- ?app_assoc; simpl; now rewrite ?app_nil_r.
  - split; [|reflexivity]. intros g' Hno'.
    rewrite (loadConfig_run g st Hno), (loadConfig_run g' st Hno'). cbv zeta.
    now rewrite Hpre, !Hbuild.
Qed.

(** C1, amended. When the host injected a configuration object,
    [loadConfig] publishes that object as it is: whatever the page would
    fetch and whatever [validateConfig] says, the run dispatches the single
    action CONFIG_SUCCESS carrying the injected object and returns. *)
Theorem loadConfig_injected (g : page) (st : store State) :
  truthy (CMS_CONFIG g) = true ->
  loadConfig SIMPLE selectIdentifier safeLoad validateConfig State reducer
             selectConfig authenticateUser g st
  = ((reducer (fst st) (CONFIG_SUCCESS (CMS_CONFIG g)),
      snd st ++ [CONFIG_SUCCESS (CMS_CONFIG g)]),
     Ok tt).
Proof.
  intros H. unfold loadConfig. rewrite H. reflexivity.
Qed.

(** C4. The run that is specified to succeed fails when an environment
    name is active: the fetch fails in transport or answers
    with a status other than 200, a preloaded configuration of more than
    one key exists, and [parseConfig] reads [config[CMS_ENV]] on the
    undefined document that the empty text parses to.  The TypeError ends
    the load with CONFIG_FAILURE. *)
Theorem loadConfig_preloaded_fetch_failure_throws (g : page) (st : store State)
  (pre : obj) (env : string) :
  safeLoad "" = Ok VUndef ->
  truthy (CMS_CONFIG g) = false ->
  CMS_ENV g = Some env ->
  selectConfig (reducer (fst st) CONFIG_REQUEST) = Some pre ->
  1 < length pre ->
  skipsConfigFile (Some pre) = false ->
  match fetch g (getConfigUrl g) with
  | Rejected _ => True
  | Response status _ _ => status <> 200
  end ->
  let err := TypeError ("Cannot read property " ++ env) in
  getConfig safeLoad g (getConfigUrl g) (isPreloaded (Some pre)) = Throw err
  /\ loadConfig SIMPLE selectIdentifier safeLoad validateConfig State reducer
                selectConfig authenticateUser g st
     = ((reducer (reducer (fst st) CONFIG_REQUEST) (CONFIG_FAILURE err),
         snd st ++ [CONFIG_REQUEST; CONFIG_FAILURE err]),
        Throw err).
Proof.
  intros Hempty Hno Henv Hpre Hsize Hskip Hfetch err.
  assert (Hparse : parseConfig safeLoad g "" = Throw err).
  { unfold parseConfig. rewrite Hempty, Henv. reflexivity. }
  assert (Hget : getConfig safeLoad g (getConfigUrl g) (isPreloaded (Some pre)) = Throw err).
  { unfold getConfig, isPreloaded. apply Nat.ltb_lt in Hsize. rewrite Hsize.
    destruct (fetch g (getConfigUrl g)) as [print|status contentType body];
      [exact Hparse|].
    apply Nat.eqb_neq in Hfetch. rewrite Hfetch. exact Hparse. }
  split; [exact Hget|].
  apply loadConfig_run_throw; [assumption|].
  rewrite Hpre. unfold buildConfig. rewrite Hskip, Hget. reflexivity.
Qed.

(** C8. A child of the overlay that carries the name of the environment
    itself replaces the overlay while it is being hoisted, and the
    children after it are read from the replacement: with environment
    [prod], the document [{prod: {prod: {x: 1}, y: 2}}] comes out with [y]
    undefined instead of [2]. *)
Theorem parseConfig_self_named_child (g : page) (data : string) :
  safeLoad data = Ok sampleDocument ->
  CMS_ENV g = Some "prod" ->
  parseConfig safeLoad g data
  = Ok (VObj [("prod", VObj [("x", VNum 1)]); ("y", VUndef)]).
Proof.
  intros Hload Henv. unfold parseConfig. rewrite Hload, Henv. reflexivity.
Qed.

End Load.

Section Failure.
Import Js Immutable.
Variable SIMPLE : string.
Variable selectIdentifier : obj -> outcome (option string).
Variable safeLoad : string -> outcome value.
Variable validateConfig : value -> outcome unit.

(** A step that throws makes the block throw. *)
Lemma stepThrows_buildConfig (g : page) (pre : option obj) (err : error) :
  stepThrows SIMPLE selectIdentifier safeLoad validateConfig g pre err ->
  buildConfig SIMPLE selectIdentifier safeLoad validateConfig g pre = Throw err.
Proof.
  unfold buildConfig.
  intros [Hskip Hload|loaded Hload Hmerge|loaded merged Hload Hmerge Hvalid
          |loaded merged Hload Hmerge Hvalid Hdefaults];
    unfold loadedDocument in *.
  - now rewrite Hskip, Hload.
  - rewrite Hload. simpl. now rewrite Hmerge.
  - rewrite Hload. simpl. rewrite Hmerge. simpl.
    destruct Hvalid as [Hjs|(js & Hjs & Hvalid)]; rewrite Hjs; [reflexivity|].
    simpl. now rewrite Hvalid.
  - rewrite Hload. simpl. rewrite Hmerge. simpl. now rewrite Hvalid.
Qed.

(** C2. In every run of [loadConfig] in which a step of the block throws
    - the fetch or the parse of the file, the merge, the validation or
    the defaults - exactly two actions are dispatched, CONFIG_REQUEST and
    then CONFIG_FAILURE with the error, so that no CONFIG_SUCCESS is
    among them; the store is left in the state that its reducer makes of
    these two actions; and the error is thrown again to the caller.  On
    the configuration slot as the spec describes it, the configuration
    that was there before the run is there after it, and the slot is in
    its failed phase with the error.  A fetch that fails without a
    preloaded configuration and a parser that throws are such steps. *)
Theorem loadConfig_failure (g : page) (err : error) :
  truthy (CMS_CONFIG g) = false ->
  (forall (State : Type) (reducer : State -> action -> State)
          (selectConfig : State -> option obj)
          (authenticateUser : State -> list action * outcome unit)
          (st : store State),
      stepThrows SIMPLE selectIdentifier safeLoad validateConfig g
        (selectConfig (reducer (fst st) CONFIG_REQUEST)) err ->
      loadConfig SIMPLE selectIdentifier safeLoad validateConfig State reducer
                 selectConfig authenticateUser g st
      = ((reducer (reducer (fst st) CONFIG_REQUEST) (CONFIG_FAILURE err),
          snd st ++ [CONFIG_REQUEST; CONFIG_FAILURE err]),
         Throw err)
      /\ forall config, ~ PublishedBy [CONFIG_REQUEST; CONFIG_FAILURE err] config)
  /\ (forall (s : configSlot) (log : list action)
             (authenticateUser : configSlot -> list action * outcome unit),
        stepThrows SIMPLE selectIdentifier safeLoad validateConfig g (preloaded s) err ->
        let after :=
          fst (fst (loadConfig SIMPLE selectIdentifier safeLoad validateConfig
                               configSlot specReducer preloaded authenticateUser
                               g (s, log))) in
        configuration after = configuration s
        /\ slotPhase after = Failed err)
  /\ (forall pre,
        skipsConfigFile pre = false ->
        isPreloaded pre = false ->
        fetchFailed (fetch g (getConfigUrl g)) = true ->
        exists message,
          stepThrows SIMPLE selectIdentifier safeLoad validateConfig g pre
            (LoadError message))
  /\ (forall pre contentType body,
        skipsConfigFile pre = false ->
        isPreloaded pre = false ->
        fetch g (getConfigUrl g) = Response 200 contentType body ->
        safeLoad body = Throw err ->
        stepThrows SIMPLE selectIdentifier safeLoad validateConfig g pre err).
Proof.
  intros Hno. split; [|split; [|split]].
  - intros State reducer selectConfig authenticateUser st Hstep. split.
    + apply loadConfig_run_throw; [assumption|].
      now apply stepThrows_buildConfig.
    + intros config [H|[H|[]]]; discriminate.
  - intros s log authenticateUser Hstep after. subst after.
    rewrite (loadConfig_run_throw SIMPLE selectIdentifier safeLoad validateConfig
               configSlot specReducer preloaded authenticateUser g (s, log) err Hno).
    + split; reflexivity.
    + now apply stepThrows_buildConfig.
  - intros pre Hskip Hsmall Hfetch.
    assert (Hget : exists message,
               getConfig safeLoad g (getConfigUrl g) (isPreloaded pre)
               = Throw (LoadError message)).
    { rewrite Hsmall. unfold getConfig.
      destruct (fetch g (getConfigUrl g)) as [print|status ct body]; simpl in Hfetch.
      - now eexists.
      - rewrite Hfetch. now eexists. }
    destruct Hget as [message Hget]. exists message. now apply loadThrows.
  - intros pre contentType body Hskip Hsmall Hfetch Hparse.
    apply loadThrows; [assumption|].
    rewrite Hsmall. unfold getConfig. rewrite Hfetch. simpl.
    rewrite andb_false_r. unfold parseConfig. now rewrite Hparse.
Qed.

End Failure.

(* ================================================================= *)
(** ** The properties on the sample page *)

Section Samples.
Import Js Immutable.

Lemma loadConfig_failure_witness :
  let s := {| slotPhase := Loaded; configuration := Some (VObj samplePreloaded) |} in
  truthy (CMS_CONFIG (pageBroken None)) = false
  /\ getConfig sampleLoad (pageBroken None) (getConfigUrl (pageBroken None))
       (isPreloaded (preloaded s))
     = Throw (External "YAMLException")
  /\ loadConfig "simple" slugIdentifier sampleLoad acceptAll configSlot specReducer
                preloaded (fun _ => ([], Ok tt)) (pageBroken None) (s, [])
     = (({| slotPhase := Failed (External "YAMLException");
            configuration := Some (VObj samplePreloaded) |},
         [CONFIG_REQUEST; CONFIG_FAILURE (External "YAMLException")]),
        Throw (External "YAMLException")).
Proof.
  intros s. split; [reflexivity|]. split; [reflexivity|].
  exact (proj1 (proj1 (loadConfig_failure "simple" slugIdentifier sampleLoad acceptAll
                         (pageBroken None) (External "YAMLException") eq_refl)
                  configSlot specReducer preloaded (fun _ => ([], Ok tt)) (s, [])
                  (loadThrows "simple" slugIdentifier sampleLoad acceptAll
                     (pageBroken None) (preloaded s) (External "YAMLException")
                     eq_refl eq_refl))).
Defined.

Lemma loadConfig_load_config_file_false_witness :
  let pre := [("load_config_file", VBool false); ("media_folder", VStr "uploads");
              ("collections", VList [])] in
  get "load_config_file" pre = VBool false
  /\ acceptAll (VObj pre) = Ok tt
  /\ exists config,
       applyDefaults "simple" slugIdentifier pre = Ok config
       /\ snd (fst (loadConfig "simple" slugIdentifier sampleLoad acceptAll (option obj)
                               slotReducer slotConfig sampleAuth (page404 None)
                               (Some pre, [])))
          = [CONFIG_REQUEST; CONFIG_SUCCESS (VObj config); Foreign "AUTH_REQUEST"].
Proof.
  intros pre. split; [reflexivity|]. split; [reflexivity|].
  eexists. split; [reflexivity|].
  exact (proj1 (loadConfig_load_config_file_false "simple" slugIdentifier sampleLoad
                  acceptAll (option obj) slotReducer slotConfig sampleAuth
                  (page404 None) (Some pre, []) pre _
                  eq_refl eq_refl eq_refl eq_refl eq_refl)).
Defined.

(** That an injected configuration is validated before it is published
    does not hold: with a validator that rejects every configuration,
    the injected object [{foo: "bar"}] is published all the same. *)
Lemma loadConfig_injected_not_validated :
  ~ (forall (validateConfig : value -> outcome unit) (injected config : value),
        truthy injected = true ->
        PublishedBy
          (snd (fst (loadConfig "simple" slugIdentifier sampleLoad validateConfig
                                (option obj) slotReducer slotConfig sampleAuth
                                (pageInjected injected) (None, []))))
          config ->
        validateConfig injected = Ok tt).
Proof.
  intros H.
  specialize (H rejectAll (VObj [("foo", VStr "bar")]) (VObj [("foo", VStr "bar")])
                eq_refl (or_introl eq_refl)).
  discriminate H.
Qed.

Lemma loadConfig_injected_witness :
  truthy (CMS_CONFIG (pageInjected (VObj [("foo", VStr "bar")]))) = true
  /\ loadConfig "simple" slugIdentifier sampleLoad rejectAll (option obj) slotReducer
                slotConfig sampleAuth (pageInjected (VObj [("foo", VStr "bar")]))
                (None, [])
     = ((Some [("foo", VStr "bar")], [CONFIG_SUCCESS (VObj [("foo", VStr "bar")])]),
        Ok tt).
Proof.
  split; [reflexivity|].
  exact (loadConfig_injected "simple" slugIdentifier sampleLoad rejectAll
           (option obj) slotReducer slotConfig sampleAuth
           (pageInjected (VObj [("foo", VStr "bar")])) (None, []) eq_refl).
Defined.

Lemma loadConfig_preloaded_fetch_failure_throws_witness :
  sampleLoad "" = Ok VUndef
  /\ 1 < length samplePreloaded
  /\ loadConfig "simple" slugIdentifier sampleLoad acceptAll (option obj) slotReducer
                slotConfig sampleAuth (page404 (Some "production"))
                (Some samplePreloaded, [])
     = ((Some samplePreloaded,
         [CONFIG_REQUEST; CONFIG_FAILURE (TypeError "Cannot read property production")]),
        Throw (TypeError "Cannot read property production")).
Proof.
  split; [reflexivity|]. split; [simpl; lia|].
  refine (proj2 (loadConfig_preloaded_fetch_failure_throws "simple" slugIdentifier
                   sampleLoad acceptAll (option obj) slotReducer slotConfig sampleAuth
                   (page404 (Some "production")) (Some samplePreloaded, [])
                   samplePreloaded "production"
                   eq_refl eq_refl eq_refl eq_refl _ eq_refl _)).
  - simpl. lia.
  - simpl. discriminate.
Defined.

Lemma parseConfig_self_named_child_witness :
  sampleLoad sampleYaml = Ok sampleDocument
  /\ parseConfig sampleLoad (page404 (Some "prod")) sampleYaml
     = Ok (VObj [("prod", VObj [("x", VNum 1)]); ("y", VUndef)]).
Proof.
  split; [reflexivity|].
  exact (parseConfig_self_named_child sampleLoad (page404 (Some "prod")) sampleYaml
           eq_refl eq_refl).
Defined.

End Samples.

(* ================================================================= *)
(** ** Further properties of applyDefaults *)

Section FurtherDefaults.
Import Js Immutable.
Variable SIMPLE : string.
Variable selectIdentifier : obj -> outcome (option string).

(** The stages of [applyDefaults], each with the Map it works on. *)
Lemma applyDefaults_trace (cfg out : obj) :
  applyDefaults SIMPLE selectIdentifier cfg = Ok out ->
  exists m0 trimmed m5 cols,
    mergeDeep (defaults SIMPLE) (VObj cfg) = Ok m0
    /\ let m1 := if negb (truthy (get "display_url" m0)) && truthy (get "site_url" m0)
                 then set "display_url" (get "site_url" m0) m0 else m0 in
       trimStart (get "media_folder" m1) = Ok trimmed
       /\ let m2 := if negb (truthy (get "public_folder" m1))
                    then set "public_folder" (VStr ("/" ++ trimmed)) m1 else m1 in
          (m3 <- slugDefault "encoding" (VStr "unicode") m2 ;;
           m4 <- slugDefault "clean_accents" (VBool false) m3 ;;
           slugDefault "sanitize_replacement" (VStr "-") m4) = Ok m5
          /\ out = set "collections" cols m5.
Proof.
  unfold applyDefaults. intros H.
  bind_ok H. rename r into m0.
  bind_ok H. rename r into trimmed.
  bind_ok H. rename r into m3.
  bind_ok H. rename r into m4.
  bind_ok H. rename r into m5.
  bind_ok H. rename r into cols.
  injection H as <-.
  exists m0, trimmed, m5, cols. cbv zeta.
  split; [assumption|]. split; [assumption|]. split; [|reflexivity].
  rewrite E1. simpl. rewrite E2. simpl. exact E3.
Qed.

(** The value of [publish_mode] after the defaults were merged in. *)
Lemma mergeDeep_defaults_publish_mode (cfg m0 : obj) :
  distinct (keys cfg) = true ->
  mergeDeep (defaults SIMPLE) (VObj cfg) = Ok m0 ->
  lookup "publish_mode" m0
  = Some (match lookup "publish_mode" cfg with
          | Some v => v
          | None => VStr SIMPLE
          end).
Proof.
  unfold mergeDeep. intros Hd H.
  destruct (lookup "publish_mode" cfg) as [v|] eqn:Ek.
  - pose proof (mergeIntoMap_lookup _ _ _ _ Hd H _ _ Ek) as Hl.
    simpl in Hl. destruct Hl as (x & Hx & Hl).
    rewrite deepMerger_over_scalar in Hx by reflexivity. congruence.
  - now rewrite (mergeIntoMap_untouched _ _ _ _ _ Ek H).
Qed.

(** X1. [publish_mode] is the one default that is filled by absence: the
    output holds the value of the input whenever the input has the key,
    falsy values included, and [publishModes.SIMPLE] otherwise. *)
Theorem applyDefaults_publish_mode (cfg out : obj) :
  distinct (keys cfg) = true ->
  applyDefaults SIMPLE selectIdentifier cfg = Ok out ->
  lookup "publish_mode" out
  = Some (match lookup "publish_mode" cfg with
          | Some v => v
          | None => VStr SIMPLE
          end).
Proof.
  intros Hd H.
  destruct (applyDefaults_trace _ _ H) as (m0 & trimmed & m5 & cols & E0 & Et & E5 & ->).
  cbv zeta in E5.
  rewrite lookup_set_other by discriminate.
  rewrite (slugDefaults_other _ _ E5) by discriminate.
  rewrite <- (mergeDeep_defaults_publish_mode _ _ Hd E0).
  destruct (negb (truthy (get "public_folder" _)));
    [rewrite lookup_set_other by discriminate|];
    (destruct (negb (truthy (get "display_url" m0)) && truthy (get "site_url" m0));
     [now rewrite lookup_set_other by discriminate | reflexivity]).
Qed.

(** X2. [display_url] takes the value of [site_url] exactly when
    [display_url] is absent or falsy and [site_url] is truthy; in every
    other case the key is as it was in the input (absent stays absent). *)
Theorem applyDefaults_display_url (cfg out : obj) :
  distinct (keys cfg) = true ->
  applyDefaults SIMPLE selectIdentifier cfg = Ok out ->
  lookup "display_url" out
  = if negb (truthy (get "display_url" cfg)) && truthy (get "site_url" cfg)
    then Some (get "site_url" cfg)
    else lookup "display_url" cfg.
Proof.
  intros Hd H.
  destruct (applyDefaults_trace _ _ H) as (m0 & trimmed & m5 & cols & E0 & Et & E5 & ->).
  cbv zeta in E5.
  pose proof (mergeDeep_defaults SIMPLE _ _ Hd E0) as K0.
  rewrite lookup_set_other by discriminate.
  rewrite (slugDefaults_other _ _ E5) by discriminate.
  assert (Hd0 : get "display_url" m0 = get "display_url" cfg).
  { unfold get. now rewrite K0 by discriminate. }
  assert (Hs0 : get "site_url" m0 = get "site_url" cfg).
  { unfold get. now rewrite K0 by discriminate. }
  rewrite Hd0, Hs0 in *.
  destruct (negb (truthy (get "public_folder" _)));
    [rewrite lookup_set_other by discriminate|];
    (destruct (negb (truthy (get "display_url" cfg)) && truthy (get "site_url" cfg));
     [apply lookup_set_same | now apply K0]).
Qed.

(** X3. [applyDefaults] writes five top-level keys only: every other key
    of the input ([backend], [media_folder], [languages], ...) is in the
    output with the value it had, and a key that the input lacks is not
    added. *)
Theorem applyDefaults_keeps_other_keys (cfg out : obj) (k : string) :
  distinct (keys cfg) = true ->
  applyDefaults SIMPLE selectIdentifier cfg = Ok out ->
  ~ In k defaultedKeys ->
  lookup k out = lookup k cfg.
Proof.
  intros Hd H Hk.
  assert (k <> "publish_mode" /\ k <> "display_url" /\ k <> "public_folder"
          /\ k <> "slug" /\ k <> "collections") as (H1 & H2 & H3 & H4 & H5).
  { unfold defaultedKeys in Hk. simpl in Hk.
    repeat split; intros ->; apply Hk; tauto. }
  destruct (applyDefaults_trace _ _ H) as (m0 & trimmed & m5 & cols & E0 & Et & E5 & ->).
  cbv zeta in E5.
  rewrite lookup_set_other by assumption.
  rewrite (slugDefaults_other _ _ E5) by assumption.
  rewrite <- (mergeDeep_defaults SIMPLE _ _ Hd E0 k H1).
  destruct (negb (truthy (get "public_folder" _)));
    [rewrite lookup_set_other by assumption|];
    (destruct (negb (truthy (get "display_url" m0)) && truthy (get "site_url" m0));
     [now rewrite lookup_set_other by assumption | reflexivity]).
Qed.

Lemma defaulted_cases (present : option value) (dflt : value) :
  let v := match present with
           | Some v => if truthy v then v else dflt
           | None => dflt
           end in
  truthy v = true \/ v = dflt.
Proof.
  destruct present as [v|]; simpl; [|now right].
  destruct (truthy v) eqn:Ev; [now left | now right].
Qed.

(** X4. A configuration that [applyDefaults] returns is filled in:
    [public_folder] is truthy, and the [slug] is either a list, which is
    then the list that the input held (a List takes no sub-key), or has
    truthy [encoding] and [sanitize_replacement] and a [clean_accents]
    that is truthy or [false]. *)
Theorem applyDefaults_output_defaulted (cfg out : obj) :
  applyDefaults SIMPLE selectIdentifier cfg = Ok out ->
  truthy (get "public_folder" out) = true
  /\ ((exists items, lookup "slug" out = Some (VList items))
      \/ ((exists e, valueAt [Key "slug"; Key "encoding"] (VObj out) = Some e
                     /\ truthy e = true)
          /\ (exists a, valueAt [Key "slug"; Key "clean_accents"] (VObj out) = Some a
                        /\ (truthy a = true \/ a = VBool false))
          /\ (exists r, valueAt [Key "slug"; Key "sanitize_replacement"] (VObj out) = Some r
                        /\ truthy r = true)))
  /\ (distinct (keys cfg) = true ->
      forall items,
        lookup "slug" out = Some (VList items) ->
        lookup "slug" cfg = Some (VList items)).
Proof.
  intros H.
  destruct (applyDefaults_trace _ _ H) as (m0 & trimmed & m5 & cols & E0 & Et & E5 & ->).
  cbv zeta in E5.
  pose proof (slugDefaults_spec _ _ E5) as S.
  assert (Hout : forall key, valueAt [Key "slug"; Key key] (VObj (set "collections" cols m5))
                             = valueAt [Key "slug"; Key key] (VObj m5)).
  { intros key. simpl. now rewrite lookup_set_other by discriminate. }
  assert (Hfilled :
            (forall key dflt,
                In (key, dflt) [("encoding", VStr "unicode"); ("clean_accents", VBool false);
                                ("sanitize_replacement", VStr "-")] ->
                exists present,
                  valueAt [Key "slug"; Key key] (VObj m5)
                  = Some (match present with
                          | Some v => if truthy v then v else dflt
                          | None => dflt
                          end)) ->
            (exists e, valueAt [Key "slug"; Key "encoding"] (VObj m5) = Some e
                       /\ truthy e = true)
            /\ (exists a, valueAt [Key "slug"; Key "clean_accents"] (VObj m5) = Some a
                          /\ (truthy a = true \/ a = VBool false))
            /\ (exists r, valueAt [Key "slug"; Key "sanitize_replacement"] (VObj m5) = Some r
                          /\ truthy r = true)).
  { intros F. split; [|split].
    - destruct (F "encoding" (VStr "unicode")) as [p ->]; [simpl; tauto|].
      eexists. split; [reflexivity|].
      destruct (defaulted_cases p (VStr "unicode")) as [Hv|Hv];
        [exact Hv | cbv zeta in Hv; now rewrite Hv].
    - destruct (F "clean_accents" (VBool false)) as [p ->]; [simpl; tauto|].
      eexists. split; [reflexivity|].
      destruct (defaulted_cases p (VBool false)) as [Hv|Hv]; [now left | now right].
    - destruct (F "sanitize_replacement" (VStr "-")) as [p ->]; [simpl; tauto|].
      eexists. split; [reflexivity|].
      destruct (defaulted_cases p (VStr "-")) as [Hv|Hv];
        [exact Hv | cbv zeta in Hv; now rewrite Hv]. }
  split; [|split].
  - rewrite get_set_other by discriminate. unfold get.
    rewrite (slugDefaults_other _ _ E5) by discriminate.
    destruct (negb (truthy (get "public_folder" _))) eqn:Ep.
    + now rewrite lookup_set_same.
    + apply negb_false_iff in Ep. exact Ep.
  - rewrite !Hout. rewrite lookup_set_other by discriminate.
    destruct (lookup "slug" _) as [[| | b | n | s0 | l | s]|] in S; try contradiction.
    + left. now exists l.
    + right. apply Hfilled. intros key dflt Hin. eexists. now apply S.
    + right. apply Hfilled. intros key dflt Hin. eexists. now apply S.
  - intros Hd items Hitems. rewrite lookup_set_other in Hitems by discriminate.
    pose proof (mergeDeep_defaults SIMPLE _ _ Hd E0 "slug") as K0.
    assert (Hslug : lookup "slug"
                      (if negb (truthy (get "public_folder"
                                          (if negb (truthy (get "display_url" m0))
                                              && truthy (get "site_url" m0)
                                           then set "display_url" (get "site_url" m0) m0
                                           else m0)))
                       then set "public_folder" (VStr ("/" ++ trimmed))
                              (if negb (truthy (get "display_url" m0))
                                  && truthy (get "site_url" m0)
                               then set "display_url" (get "site_url" m0) m0
                               else m0)
                       else if negb (truthy (get "display_url" m0))
                               && truthy (get "site_url" m0)
                            then set "display_url" (get "site_url" m0) m0
                            else m0)
                    = lookup "slug" cfg).
    { rewrite <- K0 by discriminate.
      destruct (negb (truthy (get "public_folder" _)));
        [rewrite lookup_set_other by discriminate|];
        (destruct (negb (truthy (get "display_url" m0)) && truthy (get "site_url" m0));
         [now rewrite lookup_set_other by discriminate | reflexivity]). }
    rewrite Hslug in S.
    destruct (lookup "slug" cfg) as [[| | b | n | s0 | l | s]|]; try contradiction.
    + congruence.
    + specialize (S "encoding" (VStr "unicode") (or_introl eq_refl)).
      simpl in S. rewrite Hitems in S. discriminate S.
    + specialize (S "encoding" (VStr "unicode") (or_introl eq_refl)).
      simpl in S. rewrite Hitems in S. discriminate S.
Qed.

End FurtherDefaults.

Section FurtherCollections.
Import Js Immutable.
Variable SIMPLE : string.
Variable selectIdentifier : obj -> outcome (option string).

(** On a configuration whose top-level defaults go through,
    [applyDefaults] is what its last stage makes of the collections. *)
Lemma applyDefaults_reaches_collections (cfg : obj) :
  distinct (keys cfg) = true ->
  printable (get "media_folder" cfg) = true ->
  match lookup "slug" cfg with
  | None | Some (VObj _) => True
  | _ => False
  end ->
  exists m5,
    applyDefaults SIMPLE selectIdentifier cfg
    = (collections <-
         match get "collections" cfg with
         | VList cs =>
             cs' <- mapM (collectionDefaults selectIdentifier (get "languages" cfg)) cs ;;
             Ok (VList cs')
         | VObj cs =>
             cs' <- mapValues (collectionDefaults selectIdentifier (get "languages" cfg)) cs ;;
             Ok (VObj cs')
         | _ => Throw (TypeError "Cannot read property map")
         end ;;
       Ok (set "collections" collections m5)).
Proof.
  intros Hd Hmedia Hslug.
  destruct (mergeDeep_defaults_returns SIMPLE cfg Hd) as [m0 E0].
  pose proof (mergeDeep_defaults SIMPLE cfg m0 Hd E0) as K0.
  remember (if negb (truthy (get "display_url" m0)) && truthy (get "site_url" m0)
            then set "display_url" (get "site_url" m0) m0 else m0) as m1 eqn:E1.
  assert (K1 : forall k, k <> "publish_mode" -> k <> "display_url" ->
                         lookup k m1 = lookup k cfg).
  { intros k H1 H2. rewrite <- (K0 k H1). subst m1.
    destruct (negb (truthy (get "display_url" m0)) && truthy (get "site_url" m0));
      [now apply lookup_set_other | reflexivity]. }
  assert (Hm : get "media_folder" m1 = get "media_folder" cfg).
  { unfold get. now rewrite K1 by discriminate. }
  destruct (trimStart_returns _ Hmedia) as [trimmed Htrim].
  remember (if negb (truthy (get "public_folder" m1))
            then set "public_folder" (VStr ("/" ++ trimmed)) m1 else m1) as m2 eqn:E2.
  assert (K2 : forall k, k <> "publish_mode" -> k <> "display_url" ->
                         k <> "public_folder" -> lookup k m2 = lookup k cfg).
  { intros k H1 H2 H3. subst m2.
    destruct (negb (truthy (get "public_folder" m1)));
      [rewrite lookup_set_other by assumption|]; now apply K1. }
  assert (S2 : match lookup "slug" m2 with
               | None | Some (VObj _) | Some (VList _) => True
               | _ => False
               end).
  { rewrite K2 by discriminate.
    destruct (lookup "slug" cfg) as [[| | | | | l | s]|]; try contradiction; exact I. }
  destruct (slugDefault_returns "encoding" (VStr "unicode") m2 eq_refl S2)
    as (m3 & E3 & S3).
  destruct (slugDefault_returns "clean_accents" (VBool false) m3 eq_refl S3)
    as (m4 & E4 & S4).
  destruct (slugDefault_returns "sanitize_replacement" (VStr "-") m4 eq_refl S4)
    as (m5 & E5 & _).
  assert (K5 : forall k, k <> "publish_mode" -> k <> "display_url" ->
                         k <> "public_folder" -> k <> "slug" ->
                         lookup k m5 = lookup k cfg).
  { intros k H1 H2 H3 H4. rewrite <- (K2 k H1 H2 H3).
    destruct (slugDefault_spec "encoding" _ _ _ eq_refl E3) as (O3 & _).
    destruct (slugDefault_spec "clean_accents" _ _ _ eq_refl E4) as (O4 & _).
    destruct (slugDefault_spec "sanitize_replacement" _ _ _ eq_refl E5) as (O5 & _).
    now rewrite O5, O4, O3. }
  exists m5. unfold applyDefaults. rewrite E0. cbn [bind].
  rewrite <- E1, Hm, Htrim. cbn [bind]. rewrite <- E2.
  rewrite E3. cbn [bind]. rewrite E4. cbn [bind]. rewrite E5. cbn [bind].
  assert (Hc : get "collections" m5 = get "collections" cfg).
  { unfold get. now rewrite K5 by discriminate. }
  assert (Hl : get "languages" m5 = get "languages" cfg).
  { unfold get. now rewrite K5 by discriminate. }
  now rewrite Hc, Hl.
Qed.

(** X5. A configuration needs its [collections]: when the key is missing
    or holds a scalar, [applyDefaults] throws a TypeError (at
    [map.get('collections').map]), also on an input as small as
    [{media_folder: "uploads"}]. *)
Theorem applyDefaults_without_collections_throws (cfg : obj) :
  distinct (keys cfg) = true ->
  printable (get "media_folder" cfg) = true ->
  match lookup "slug" cfg with
  | None | Some (VObj _) => True
  | _ => False
  end ->
  isCollection (get "collections" cfg) = false ->
  exists what, applyDefaults SIMPLE selectIdentifier cfg = Throw (TypeError what).
Proof.
  intros Hd Hmedia Hslug Hc.
  destruct (applyDefaults_reaches_collections cfg Hd Hmedia Hslug) as [m5 ->].
  destruct (get "collections" cfg); try discriminate Hc; now eexists.
Qed.

(** X6. A collection in which neither [folder] nor [files] is truthy (an
    empty [folder] path counts) does not come through: the callback
    returns nothing for it, and the output holds [undefined] at its
    position. *)
Theorem applyDefaults_drops_empty_collection (cfg out : obj) (cs : list value)
  (i : nat) (c : obj) :
  distinct (keys cfg) = true ->
  applyDefaults SIMPLE selectIdentifier cfg = Ok out ->
  get "collections" cfg = VList cs ->
  nth_error cs i = Some (VObj c) ->
  truthy (get "folder" c) = false ->
  truthy (get "files" c) = false ->
  exists cs',
    get "collections" out = VList cs'
    /\ length cs' = length cs
    /\ nth_error cs' i = Some VUndef.
Proof.
  intros Hd H Hcs Hi Hfolder Hfiles.
  destruct (applyDefaults_collections _ _ _ _ _ Hd H Hcs) as (cs' & Hout & Hmap).
  destruct (mapM_nth _ _ _ Hmap) as [Hlen Hnth].
  exists cs'. split; [assumption|]. split; [assumption|].
  destruct (Hnth i _ Hi) as (b & Hb & Hrun).
  unfold collectionDefaults in Hrun. rewrite Hfolder, Hfiles in Hrun.
  congruence.
Qed.

(** X7. On a folder collection the callback touches three keys only,
    [folder], [fields] and [media_folder]: [media_folder] becomes the
    empty string when the collection has a [path] and no [media_folder]
    and is otherwise as it was; [fields] are as they were unless both the
    languages and the fields are truthy; every other key is as it was. *)
Theorem collectionDefaults_folder_frame (langs : value) (c : obj) (r : value) :
  truthy (get "folder" c) = true ->
  collectionDefaults selectIdentifier langs (VObj c) = Ok r ->
  exists c',
    r = VObj c'
    /\ lookup "media_folder" c'
       = (if has "path" c && negb (has "media_folder" c)
          then Some (VStr "")
          else lookup "media_folder" c)
    /\ (truthy langs && truthy (get "fields" c) = false ->
        lookup "fields" c' = lookup "fields" c)
    /\ forall k, k <> "folder" -> k <> "fields" -> k <> "media_folder" ->
                 lookup k c' = lookup k c.
Proof.
  intros Hf H. unfold collectionDefaults in H. rewrite Hf in H.
  remember (if has "path" c && negb (has "media_folder" c)
            then set "media_folder" (VStr "") c else c) as c1 eqn:E1.
  assert (Hmedia : lookup "media_folder" c1
                   = if has "path" c && negb (has "media_folder" c)
                     then Some (VStr "") else lookup "media_folder" c).
  { subst c1. destruct (has "path" c && negb (has "media_folder" c));
      [apply lookup_set_same | reflexivity]. }
  assert (Hother : forall k, k <> "media_folder" -> lookup k c1 = lookup k c).
  { intros k Hk. subst c1. destruct (has "path" c && negb (has "media_folder" c));
      [now apply lookup_set_other | reflexivity]. }
  assert (Hfields : get "fields" c1 = get "fields" c).
  { unfold get. now rewrite Hother by discriminate. }
  rewrite Hfields in H.
  bind_ok H. rename r0 into c2. bind_ok H. injection H as <-.
  exists (set "folder" (VStr r0) c2). split; [reflexivity|].
  destruct (truthy langs && truthy (get "fields" c)) eqn:El.
  - bind_ok E. bind_ok E. bind_ok E. bind_ok E. injection E as <-.
    split; [|split].
    + now rewrite !lookup_set_other by discriminate.
    + discriminate.
    + intros k H1 H2 H3. rewrite !lookup_set_other by assumption. now apply Hother.
  - injection E as <-. split; [|split].
    + now rewrite lookup_set_other by discriminate.
    + intros _. rewrite lookup_set_other by discriminate. now apply Hother.
    + intros k H1 H2 H3. rewrite lookup_set_other by assumption. now apply Hother.
Qed.

End FurtherCollections.

(* ================================================================= *)
(** ** Further properties of addLanguageFields *)

Section FurtherFields.
Import Js Immutable.

(** The callback of [reduce] appends exactly one field. *)
Lemma addLanguageField_appends (langs : value) (identifier : option string)
  (acc acc' : list value) (item : value) :
  addLanguageField langs identifier acc item = Ok acc' ->
  exists x, acc' = acc ++ [x].
Proof.
  unfold addLanguageField. intros H. bind_ok H.
  destruct item as [| | b | n | s | l | o];
    try (injection H as <-; now eexists).
  destruct (truthy (get "translate" o) && strictNeq r identifier
            && strictNeq r (Some "body"));
    [|injection H as <-; now eexists].
  destruct langs as [| | b | n | s | ls | m]; try discriminate.
  bind_ok H. injection H as <-. now eexists.
Qed.

Lemma reduce_appends (langs : value) (identifier : option string) (items : list value) :
  forall acc r,
    reduce (addLanguageField langs identifier) items acc = Ok r ->
    length r = length acc + length items.
Proof.
  induction items as [|item items IH]; simpl; intros acc r H.
  - injection H as <-. lia.
  - bind_ok H. destruct (addLanguageField_appends _ _ _ _ _ E) as [x ->].
    rewrite (IH _ _ H), length_app. simpl. lia.
Qed.

(** A step of [reduce] that fails makes the whole [reduce] fail. *)
Lemma reduce_Ok_steps {A B : Type} (f : B -> A -> outcome B) (l : list A) :
  forall acc r a,
    reduce f l acc = Ok r ->
    In a l ->
    exists acc0 acc1, f acc0 a = Ok acc1.
Proof.
  induction l as [|a0 l IH]; simpl; intros acc r a H Hin; [destruct Hin|].
  bind_ok H. destruct Hin as [<-|Hin].
  - now exists acc, r0.
  - now apply (IH _ _ _ H).
Qed.

(** X8. Whatever the fields and the languages are, [addLanguageFields]
    returns as many fields as it was given: a translated field is
    replaced by its wrapper, never added to. *)
Theorem addLanguageFields_length (items : list value) (langs : value)
  (identifier : option string) (r : list value) :
  addLanguageFields (VList items) langs identifier = Ok r ->
  length r = length items.
Proof.
  unfold addLanguageFields. intros H. now rewrite (reduce_appends _ _ _ _ _ H).
Qed.

Lemma addLanguageFields_passes_through_aux (items : list value) (langs : value)
  (identifier : option string) :
  forallb (passesThrough identifier) items = true ->
  addLanguageFields (VList items) langs identifier = Ok items.
Proof.
  intros H. unfold addLanguageFields.
  assert (G : forall acc,
             reduce (addLanguageField langs identifier) items acc = Ok (acc ++ items)).
  { induction items as [|item items IH]; intros acc; simpl.
    - now rewrite app_nil_r.
    - simpl in H. apply andb_true_iff in H. destruct H as [Hitem Hrest].
      assert (Hstep : addLanguageField langs identifier acc item = Ok (acc ++ [item])).
      { unfold addLanguageField.
        destruct item as [| | b | n | s | l | o]; try discriminate; try reflexivity.
        simpl. simpl in Hitem. apply negb_true_iff in Hitem.
        unfold translated in Hitem. now rewrite Hitem. }
      rewrite Hstep. simpl. rewrite (IH Hrest). now rewrite <- app_assoc. }
  apply (G []).
Qed.

(** X9. When no field is to be translated (each one is unmarked, or is
    the identifier field or the body), the fields come back exactly as
    they were given, whatever [langs] is - even when it is not a list. *)
Theorem addLanguageFields_passes_through (items : list value) (langs : value)
  (identifier : option string) :
  forallb (passesThrough identifier) items = true ->
  addLanguageFields (VList items) langs identifier = Ok items.
Proof. apply addLanguageFields_passes_through_aux. Qed.

(** X10. A field list that holds [null] or [undefined] is never
    expanded: reading [item.name] throws. *)
Theorem addLanguageFields_null_item (items : list value) (langs : value)
  (identifier : option string) :
  In VNull items \/ In VUndef items ->
  forall r, addLanguageFields (VList items) langs identifier <> Ok r.
Proof.
  intros Hin r H. unfold addLanguageFields in H.
  destruct Hin as [Hin|Hin];
    destruct (reduce_Ok_steps _ _ _ _ _ H Hin) as (acc0 & acc1 & Hstep);
    discriminate Hstep.
Qed.

(** X23. Expanding is idempotent: the fields that [addLanguageFields]
    returns carry no translate marker that would still apply, so that
    running the result through [addLanguageFields] again, with any
    languages, gives it back unchanged. *)
Theorem addLanguageFields_idempotent (codes : list string) (identifier : option string)
  (items : list obj) (r : list value) (langs : value) :
  forallb allAscii codes = true ->
  addLanguageFields (VList (map VObj items)) (VList (map VStr codes)) identifier = Ok r ->
  addLanguageFields (VList r) langs identifier = Ok r.
Proof.
  intros Hascii H. unfold addLanguageFields in H.
  rewrite (reduce_expand codes identifier items Hascii []) in H.
  injection H as <-. apply addLanguageFields_passes_through_aux.
  apply forallb_forall. intros x Hx. apply in_map_iff in Hx.
  destruct Hx as (o & <- & _). unfold expandField.
  destruct (translated identifier o) eqn:Et.
  - unfold wrapperField, passesThrough, translated, get.
    rewrite !lookup_set_other by discriminate. now rewrite lookup_omit_same.
  - simpl. now rewrite Et.
Qed.

End FurtherFields.

(* ================================================================= *)
(** ** Further properties of mergePreloadedConfig *)

Section FurtherMerge.
Import Js Immutable.

Lemma set_absent (k : string) (v : value) (m : obj) :
  lookup k m = None -> set k v m = m ++ [(k, v)].
Proof.
  induction m as [|[k0 v0] m IH]; simpl; [reflexivity|].
  destruct (String.eqb_spec k k0); [discriminate|].
  intros H. now rewrite IH.
Qed.

Lemma set_present (k : string) (v : value) (m : obj) :
  lookup k m = Some v -> set k v m = m.
Proof.
  induction m as [|[k0 v0] m IH]; simpl; [discriminate|].
  destruct (String.eqb_spec k k0) as [->|Hne].
  - intros H. now injection H as ->.
  - intros H. now rewrite IH.
Qed.

Lemma lookup_app_absent (k : string) (m n : obj) :
  lookup k m = None -> lookup k (m ++ n) = lookup k n.
Proof.
  induction m as [|[k0 v0] m IH]; simpl; [reflexivity|].
  destruct (String.eqb_spec k k0); [discriminate | exact IH].
Qed.

Lemma has_set (k k0 : string) (v : value) (m : obj) :
  has k (set k0 v m) = (k =? k0) || has k m.
Proof.
  unfold has. destruct (String.eqb_spec k k0) as [->|Hne].
  - now rewrite lookup_set_same.
  - now rewrite lookup_set_other.
Qed.

Lemma lookup_distinct_In (k : string) (v : value) (m : obj) :
  distinct (keys m) = true -> In (k, v) m -> lookup k m = Some v.
Proof.
  induction m as [|[k0 v0] m IH]; simpl; intros Hd Hin; [destruct Hin|].
  apply andb_true_iff in Hd. destruct Hd as [Hfresh Hd].
  apply negb_true_iff in Hfresh. apply lookup_absent in Hfresh.
  destruct Hin as [Heq|Hin].
  - injection Heq as -> ->. now rewrite String.eqb_refl.
  - destruct (String.eqb_spec k k0) as [->|Hne]; [|now apply IH].
    rewrite (IH Hd Hin) in Hfresh. discriminate.
Qed.

(** Keys that are all new are appended in order. *)
Lemma mergeIntoMap_fresh (merger : value -> value -> outcome value) (n : obj) :
  forall m,
    distinct (keys n) = true ->
    (forall k, In k (keys n) -> lookup k m = None) ->
    mergeIntoMap merger n m = Ok (m ++ n).
Proof.
  induction n as [|[k0 v0] n IH]; simpl; intros m Hd Hm.
  - now rewrite app_nil_r.
  - apply andb_true_iff in Hd. destruct Hd as [Hfresh Hd].
    apply negb_true_iff in Hfresh.
    rewrite (Hm k0 (or_introl eq_refl)).
    rewrite set_absent by (apply Hm; now left).
    rewrite IH; [now rewrite <- app_assoc | assumption |].
    intros k Hk. rewrite lookup_app_absent by (apply Hm; now right).
    simpl. destruct (String.eqb_spec k k0) as [->|Hne]; [|reflexivity].
    exfalso. apply Bool.not_true_iff_false in Hfresh. apply Hfresh.
    apply existsb_exists. exists k0. split; [assumption | apply String.eqb_refl].
Qed.

(** Entries that the Map already holds, and that merge with themselves
    to themselves, change nothing. *)
Lemma mergeIntoMap_same (merger : value -> value -> outcome value) (n : obj) :
  forall m,
    (forall k v, In (k, v) n -> lookup k m = Some v /\ merger v v = Ok v) ->
    mergeIntoMap merger n m = Ok m.
Proof.
  induction n as [|[k0 v0] n IH]; simpl; intros m Hn; [reflexivity|].
  destruct (Hn k0 v0 (or_introl eq_refl)) as [Hk Hv].
  rewrite Hk, Hv. simpl. rewrite (set_present _ _ _ Hk).
  apply IH. intros k v Hin. apply Hn. now right.
Qed.

Lemma mergeIntoList_same (merger : value -> value -> outcome value) (l : list value) :
  (forall v, In v l -> merger v v = Ok v) ->
  mergeIntoList merger l l = Ok l.
Proof.
  induction l as [|v l IH]; simpl; intros Hl; [reflexivity|].
  rewrite (Hl v (or_introl eq_refl)). simpl.
  rewrite IH by (intros v' Hin; apply Hl; now right). reflexivity.
Qed.

(** Merging a document with itself gives the document. *)
Lemma deepMerger_same (v : value) :
  uniqueKeys v = true -> deepMerger v v = Ok v.
Proof.
  induction v as [| | b | n | s | l IH | m IH] using value_ind; intros Hu;
    try reflexivity.
  - simpl. rewrite mergeIntoList_same; [reflexivity|].
    intros v Hin. apply (IH v Hin). now apply (uniqueKeys_list l Hu).
  - simpl. destruct (uniqueKeys_obj _ Hu) as [Hd Hsub].
    rewrite mergeIntoMap_same; [reflexivity|].
    intros k v Hin. split.
    + now apply lookup_distinct_In.
    + apply (IH k v Hin). now apply (Hsub k v).
Qed.

(** The keys after a merge are the keys of both Maps. *)
Lemma mergeIntoMap_has (merger : value -> value -> outcome value) (n : obj) :
  forall m r,
    mergeIntoMap merger n m = Ok r ->
    forall k, has k r = has k m || has k n.
Proof.
  induction n as [|[k0 v0] n IH]; simpl; intros m r H k.
  - injection H as <-. now rewrite orb_false_r.
  - assert (Hstep : forall x, has k (set k0 x m) || has k n
                              = has k m || has k ((k0, v0) :: n)).
    { intros x. rewrite has_set. unfold has at 4. simpl.
      destruct (k =? k0); simpl.
      - now rewrite orb_true_r.
      - reflexivity. }
    destruct (lookup k0 m) as [e|].
    + bind_ok H. rewrite (IH _ _ H k). apply Hstep.
    + rewrite (IH _ _ H k). apply Hstep.
Qed.

(** X11. The laws of the merge.  A loaded document that is falsy (an
    empty file parses to undefined) or is the empty object leaves the
    preloaded configuration as it is; merging into an empty preloaded
    configuration gives the loaded document; and merging a configuration
    into itself gives that configuration, so that loading the same
    document twice changes nothing. *)
Theorem mergePreloadedConfig_identities :
  (forall pre loaded,
      truthy loaded = false \/ loaded = VObj [] ->
      mergePreloadedConfig (Some pre) loaded = Ok (VObj pre))
  /\ (forall loaded,
        distinct (keys loaded) = true ->
        mergePreloadedConfig (Some []) (VObj loaded) = Ok (VObj loaded))
  /\ (forall config,
        uniqueKeys (VObj config) = true ->
        mergePreloadedConfig (Some config) (VObj config) = Ok (VObj config)).
Proof.
  split; [|split].
  - intros pre loaded [H| ->]; unfold mergePreloadedConfig;
      [rewrite H|]; reflexivity.
  - intros loaded Hd. unfold mergePreloadedConfig, mergeDeep. simpl truthy. cbv iota.
    now rewrite (mergeIntoMap_fresh deepMerger loaded [] Hd).
  - intros config Hu. unfold mergePreloadedConfig, mergeDeep. simpl truthy. cbv iota.
    pose proof (deepMerger_same (VObj config) Hu) as H. simpl in H.
    destruct (mergeIntoMap deepMerger config config); simpl in *; congruence.
Qed.

Lemma mergePreloadedConfig_identities_witness :
  uniqueKeys (VObj [("backend", VObj [("name", VStr "github")]);
                    ("collections", VList [VObj [("name", VStr "posts")]])]) = true
  /\ mergePreloadedConfig
       (Some [("backend", VObj [("name", VStr "github")]);
              ("collections", VList [VObj [("name", VStr "posts")]])])
       (VObj [("backend", VObj [("name", VStr "github")]);
              ("collections", VList [VObj [("name", VStr "posts")]])])
     = Ok (VObj [("backend", VObj [("name", VStr "github")]);
                 ("collections", VList [VObj [("name", VStr "posts")]])]).
Proof.
  split; [reflexivity|].
  exact (proj2 (proj2 mergePreloadedConfig_identities)
           [("backend", VObj [("name", VStr "github")]);
            ("collections", VList [VObj [("name", VStr "posts")]])] eq_refl).
Defined.

(** X12. A merge loses no key and invents none: the merged configuration
    has a key exactly when the preloaded configuration or the loaded
    document has it. *)
Theorem mergePreloadedConfig_keys (pre loaded : obj) (merged : value) :
  mergePreloadedConfig (Some pre) (VObj loaded) = Ok merged ->
  exists m,
    merged = VObj m
    /\ forall k, has k m = has k pre || has k loaded.
Proof.
  unfold mergePreloadedConfig, mergeDeep. simpl truthy. cbv iota.
  intros H. bind_ok H. injection H as <-.
  exists r. split; [reflexivity|].
  now apply (mergeIntoMap_has deepMerger loaded pre).
Qed.

Lemma mergePreloadedConfig_keys_witness :
  exists m,
    mergePreloadedConfig (Some [("a", VNum 1); ("b", VNum 2)])
                         (VObj [("b", VNum 3); ("c", VNum 4)]) = Ok (VObj m)
    /\ has "c" m = true /\ has "a" m = true /\ has "d" m = false.
Proof.
  destruct (mergePreloadedConfig_keys [("a", VNum 1); ("b", VNum 2)]
              [("b", VNum 3); ("c", VNum 4)] _ eq_refl) as (m & Hm & Hkeys).
  exists m. split; [now rewrite <- Hm|].
  rewrite !Hkeys. repeat split; reflexivity.
Defined.

End FurtherMerge.

(* ================================================================= *)
(** ** Further properties of parsing and fetching *)

Section FurtherParse.
Import Js Immutable.
Variable safeLoad : string -> outcome value.

(** X14. [parseConfig] hands on what the YAML parser gives whenever
    there is nothing to hoist: no environment name is active, the parser
    throws, or the document is an object in which the key of the active
    environment is missing, holds a falsy value, or holds a number or a
    boolean (which have no keys). *)
Theorem parseConfig_unchanged (g : page) (data : string) :
  (CMS_ENV g = None -> parseConfig safeLoad g data = safeLoad data)
  /\ (forall err, safeLoad data = Throw err -> parseConfig safeLoad g data = Throw err)
  /\ (forall env c,
        CMS_ENV g = Some env ->
        safeLoad data = Ok (VObj c) ->
        (lookup env c = None /\ inherited env = false)
        \/ (exists v, lookup env c = Some v /\ truthy v = false)
        \/ (exists n, lookup env c = Some (VNum n))
        \/ (exists b, lookup env c = Some (VBool b)) ->
        parseConfig safeLoad g data = Ok (VObj c)).
Proof.
  split; [apply parseConfig_no_env|]. split.
  - intros err H. unfold parseConfig. now rewrite H.
  - intros env c Henv Hload H. unfold parseConfig. rewrite Hload, Henv. simpl.
    destruct H as [[Hnone Hin]|[(v & Hv & Hfalsy)|[[n Hv]|[b Hv]]]].
    + now rewrite Hnone, Hin.
    + rewrite Hv. simpl. now rewrite Hfalsy.
    + rewrite Hv. simpl. now destruct (negb (n =? 0)%Z).
    + rewrite Hv. simpl. now destruct b.
Qed.

(** X15. With a preloaded configuration, and a YAML parser that reads
    the empty text as undefined, every response that is not a 200 with a
    YAML content type stands for an empty document when no environment
    name is active; without a preloaded configuration a 200 response is
    parsed whatever its content type says. *)
Theorem getConfig_fallbacks (g : page) (file : string) :
  (safeLoad "" = Ok VUndef ->
   CMS_ENV g = None ->
   fetchFailed (fetch g file) || notYaml (fetch g file) = true ->
   getConfig safeLoad g file true = Ok VUndef)
  /\ (forall contentType body,
        fetch g file = Response 200 contentType body ->
        getConfig safeLoad g file false = parseConfig safeLoad g body).
Proof.
  split.
  - intros Hempty Henv H.
    assert (Hparse : parseConfig safeLoad g "" = Ok VUndef)
      by now rewrite parseConfig_no_env.
    unfold getConfig. destruct (fetch g file) as [print|status ct body]; [exact Hparse|].
    unfold fetchFailed, notYaml in H.
    destruct (Nat.eqb status 200); simpl in *; [|exact Hparse].
    rewrite H. exact Hparse.
  - intros ct body H. unfold getConfig. rewrite H. simpl.
    now rewrite andb_false_r.
Qed.

End FurtherParse.

Section FurtherUrl.
Import Js Immutable.

(** What [parseConfig] reads of the page is the name of the environment. *)
Lemma parseConfig_page (safeLoad : string -> outcome value) (g g' : page) (data : string) :
  CMS_ENV g' = CMS_ENV g ->
  parseConfig safeLoad g' data = parseConfig safeLoad g data.
Proof. intros H. unfold parseConfig. now rewrite H. Qed.

(** X16. The URL of the configuration file.  It is the [href] of the
    link element whenever the type of the link is one of the two YAML
    types and the [href] is not empty; it is ['config.yml'] when there is
    no link element, when its [href] is empty, or when its type is neither
    YAML type (nor a name that every object inherits); so it is never
    empty.  And it is the one URL that is fetched: the block of
    [loadConfig] is the same on two pages that agree on the link element,
    on the environment and on what is fetched from this URL. *)
Theorem getConfigUrl_nonempty (g : page) :
  getConfigUrl g <> ""
  /\ (forall el,
        configLinkEl g = Some el ->
        linkType el = "text/yaml" \/ linkType el = "application/x-yaml" ->
        href el <> "" ->
        getConfigUrl g = href el)
  /\ (getConfigUrl g = "config.yml"
      \/ exists el, configLinkEl g = Some el /\ getConfigUrl g = href el)
  /\ (forall el,
        configLinkEl g = Some el ->
        linkType el <> "text/yaml" ->
        linkType el <> "application/x-yaml" ->
        inherited (linkType el) = false ->
        getConfigUrl g = "config.yml")
  /\ (forall el,
        configLinkEl g = Some el ->
        href el = "" ->
        getConfigUrl g = "config.yml")
  /\ (configLinkEl g = None -> getConfigUrl g = "config.yml")
  /\ (forall (SIMPLE : string) (selectIdentifier : obj -> outcome (option string))
             (safeLoad : string -> outcome value)
             (validateConfig : value -> outcome unit) (pre : option obj) (g' : page),
        configLinkEl g' = configLinkEl g ->
        CMS_ENV g' = CMS_ENV g ->
        fetch g' (getConfigUrl g) = fetch g (getConfigUrl g) ->
        buildConfig SIMPLE selectIdentifier safeLoad validateConfig g' pre
        = buildConfig SIMPLE selectIdentifier safeLoad validateConfig g pre).
Proof.
  split; [|split; [|split; [|split; [|split; [|split]]]]].
  - unfold getConfigUrl. destruct (configLinkEl g) as [el|]; [|discriminate].
    destruct ((existsb (String.eqb (linkType el)) ["text/yaml"; "application/x-yaml"]
               || inherited (linkType el)) && negb (href el =? "")) eqn:E;
      [|discriminate].
    apply andb_true_iff in E. destruct E as [_ E]. apply negb_true_iff in E.
    now apply String.eqb_neq.
  - intros el Hel Htype Hhref. unfold getConfigUrl. rewrite Hel.
    apply String.eqb_neq in Hhref. rewrite Hhref.
    destruct Htype as [-> | ->]; reflexivity.
  - unfold getConfigUrl. destruct (configLinkEl g) as [el|]; [|now left].
    destruct ((existsb (String.eqb (linkType el)) ["text/yaml"; "application/x-yaml"]
               || inherited (linkType el)) && negb (href el =? ""));
      [right; now exists el | now left].
  - intros el Hel H1 H2 H3. unfold getConfigUrl. rewrite Hel. simpl.
    apply String.eqb_neq in H1, H2. now rewrite H1, H2, H3.
  - intros el Hel Hhref. unfold getConfigUrl. rewrite Hel, Hhref. simpl.
    now rewrite andb_false_r.
  - intros Hel. unfold getConfigUrl. now rewrite Hel.
  - intros SIMPLE selectIdentifier safeLoad validateConfig pre g' Hel Henv Hfetch.
    assert (Hurl : getConfigUrl g' = getConfigUrl g)
      by (unfold getConfigUrl; now rewrite Hel).
    unfold buildConfig. rewrite Hurl.
    assert (Hget : getConfig safeLoad g' (getConfigUrl g) (isPreloaded pre)
                   = getConfig safeLoad g (getConfigUrl g) (isPreloaded pre)).
    { unfold getConfig. rewrite Hfetch.
      destruct (fetch g (getConfigUrl g)) as [print|status contentType body];
        now rewrite !(parseConfig_page safeLoad g g' _ Henv). }
    now rewrite Hget.
Qed.

Lemma getConfigUrl_nonempty_witness :
  let g := {| CMS_CONFIG := VUndef; CMS_ENV := None;
              configLinkEl := Some {| linkType := "text/yaml"; href := "/admin/cms.yml" |};
              fetch := fun _ => Rejected "TypeError: Failed to fetch" |} in
  getConfigUrl g = "/admin/cms.yml".
Proof.
  intros g.
  apply (proj1 (proj2 (getConfigUrl_nonempty g))
           {| linkType := "text/yaml"; href := "/admin/cms.yml" |} eq_refl);
    [now left | discriminate].
Defined.

End FurtherUrl.

Section FurtherHoist.
Import Js.

Lemma parseConfig_unchanged_witness :
  let doc := [("backend", VObj [("name", VStr "github")]); ("staging", VNull)] in
  parseConfig (fun _ => Ok (VObj doc)) (page404 (Some "staging")) "backend: ..."
  = Ok (VObj doc).
Proof.
  intros doc.
  apply (proj2 (proj2 (parseConfig_unchanged (fun _ => Ok (VObj doc))
                         (page404 (Some "staging")) "backend: ..."))
           "staging" doc eq_refl eq_refl).
  right. left. exists VNull. split; reflexivity.
Defined.

Lemma getConfig_fallbacks_witness :
  let g := {| CMS_CONFIG := VUndef; CMS_ENV := None; configLinkEl := None;
              fetch := fun _ => Response 200 (Some "text/html") "<html></html>" |} in
  sampleLoad "" = Ok VUndef
  /\ fetchFailed (fetch g "config.yml") || notYaml (fetch g "config.yml") = true
  /\ getConfig sampleLoad g "config.yml" true = Ok VUndef.
Proof.
  intros g. split; [reflexivity|]. split; [reflexivity|].
  exact (proj1 (getConfig_fallbacks sampleLoad g "config.yml") eq_refl eq_refl eq_refl).
Defined.

Lemma parseConfig_hoists_witness :
  let overlay := [("backend", VObj [("name", VStr "git-gateway")]);
                  ("site_url", VStr "https://example.org")] in
  let doc := [("backend", VObj [("name", VStr "test-repo")]);
              ("media_folder", VStr "uploads");
              ("production", VObj overlay)] in
  exists c',
    parseConfig (fun _ => Ok (VObj doc)) (page404 (Some "production")) "backend: ..."
    = Ok (VObj c')
    /\ lookup "backend" c' = Some (VObj [("name", VStr "git-gateway")])
    /\ lookup "site_url" c' = Some (VStr "https://example.org")
    /\ lookup "media_folder" c' = Some (VStr "uploads").
Proof.
  intros overlay doc.
  destruct (parseConfig_hoists (fun _ => Ok (VObj doc)) (page404 (Some "production"))
              "backend: ..." "production" doc overlay
              eq_refl eq_refl eq_refl eq_refl eq_refl)
    as (c' & Hrun & Hchild & Hother).
  exists c'. split; [exact Hrun|]. split; [|split].
  - now apply Hchild.
  - now apply Hchild.
  - now rewrite Hother.
Defined.

End FurtherHoist.

(* ================================================================= *)
(** ** Further properties of loadConfig *)

Section FurtherLoad.
Import Js Immutable.
Variable SIMPLE : string.
Variable selectIdentifier : obj -> outcome (option string).
Variable safeLoad : string -> outcome value.
Variable validateConfig : value -> outcome unit.
Variable State : Type.
Variable reducer : State -> action -> State.
Variable selectConfig : State -> option obj.
Variable authenticateUser : State -> list action * outcome unit.

(** X17. [dispatch(authenticateUser())] sits inside the [try]: when it
    throws, the configuration has already been published, and the run
    goes on to dispatch CONFIG_FAILURE with the error of the
    authentication and to throw it, so that CONFIG_SUCCESS is followed by
    CONFIG_FAILURE. *)
Theorem loadConfig_authentication_failure (g : page) (st : store State)
  (config : obj) (err : error) :
  truthy (CMS_CONFIG g) = false ->
  buildConfig SIMPLE selectIdentifier safeLoad validateConfig g
    (selectConfig (reducer (fst st) CONFIG_REQUEST)) = Ok config ->
  let s2 := reducer (reducer (fst st) CONFIG_REQUEST) (CONFIG_SUCCESS (VObj config)) in
  snd (authenticateUser s2) = Throw err ->
  loadConfig SIMPLE selectIdentifier safeLoad validateConfig State reducer
             selectConfig authenticateUser g st
  = ((reducer (fold_left reducer (fst (authenticateUser s2)) s2) (CONFIG_FAILURE err),
      snd st ++ [CONFIG_REQUEST; CONFIG_SUCCESS (VObj config)]
        ++ fst (authenticateUser s2) ++ [CONFIG_FAILURE err]),
     Throw err).
Proof.
  intros Hno Hbuild s2 Hauth.
  rewrite (loadConfig_run SIMPLE selectIdentifier safeLoad validateConfig State reducer
             selectConfig authenticateUser g st Hno).
  cbv zeta. rewrite Hbuild. fold s2. rewrite Hauth.
  now rewrite <- !app_assoc.
Qed.

(** X18. What [loadConfig] returns can be read off the actions it
    dispatched: a run that throws has dispatched CONFIG_FAILURE with the
    thrown error as its last action, and a run that returns has
    dispatched a CONFIG_SUCCESS. *)
Theorem loadConfig_outcome_reported (g : page) (st st' : store State)
  (r : outcome unit) :
  loadConfig SIMPLE selectIdentifier safeLoad validateConfig State reducer
             selectConfig authenticateUser g st = (st', r) ->
  (forall err, r = Throw err ->
               exists added, snd st' = snd st ++ added ++ [CONFIG_FAILURE err])
  /\ (r = Ok tt ->
      exists before config after,
        snd st' = snd st ++ before ++ CONFIG_SUCCESS config :: after).
Proof.
  intros H. destruct (truthy (CMS_CONFIG g)) eqn:Hno.
  - unfold loadConfig in H. rewrite Hno in H. injection H as <- <-. split.
    + discriminate.
    + intros _. exists [], (CMS_CONFIG g), []. reflexivity.
  - rewrite (loadConfig_run SIMPLE selectIdentifier safeLoad validateConfig State reducer
               selectConfig authenticateUser g st Hno) in H.
    cbv zeta in H.
    destruct (buildConfig _ _ _ _ _ _) as [config|e|].
    + destruct (snd (authenticateUser _)) as [[]|e|]; injection H as <- <-; split;
        try discriminate.
      * intros _. exists [CONFIG_REQUEST], (VObj config), (fst (authenticateUser
          (reducer (reducer (fst st) CONFIG_REQUEST) (CONFIG_SUCCESS (VObj config))))).
        cbn [snd]. now rewrite <- !app_assoc.
      * intros err Herr. injection Herr as <-.
        exists ([CONFIG_REQUEST; CONFIG_SUCCESS (VObj config)]
                ++ fst (authenticateUser
                          (reducer (reducer (fst st) CONFIG_REQUEST)
                             (CONFIG_SUCCESS (VObj config))))).
        cbn [snd]. now rewrite <- !app_assoc.
    + injection H as <- <-. split; [|discriminate].
      intros err Herr. injection Herr as <-.
      exists [CONFIG_REQUEST]. cbn [snd]. now rewrite <- !app_assoc.
    + injection H as <- <-. split; discriminate.
Qed.

(** X19. Without an injected configuration, CONFIG_REQUEST is the first
    action of every run, and the state is read only after the reducer
    has handled it: two stores that agree once CONFIG_REQUEST is reduced
    (and on the log) have the same run, so the preloaded configuration is
    what the reducer leaves of it on CONFIG_REQUEST. *)
Theorem loadConfig_reads_state_after_request (g : page) :
  truthy (CMS_CONFIG g) = false ->
  (forall st, exists rest,
      snd (fst (loadConfig SIMPLE selectIdentifier safeLoad validateConfig State
                           reducer selectConfig authenticateUser g st))
      = snd st ++ CONFIG_REQUEST :: rest)
  /\ (forall s s' log,
        reducer s CONFIG_REQUEST = reducer s' CONFIG_REQUEST ->
        loadConfig SIMPLE selectIdentifier safeLoad validateConfig State reducer
                   selectConfig authenticateUser g (s, log)
        = loadConfig SIMPLE selectIdentifier safeLoad validateConfig State reducer
                     selectConfig authenticateUser g (s', log)).
Proof.
  intros Hno. split.
  - intros st.
    rewrite (loadConfig_run SIMPLE selectIdentifier safeLoad validateConfig State reducer
               selectConfig authenticateUser g st Hno).
    cbv zeta.
    destruct (buildConfig _ _ _ _ _ _) as [config|e|].
    + destruct (snd (authenticateUser _)) as [[]|e|]; cbn [fst snd];
        eexists; rewrite <- !app_assoc; reflexivity.
    + eexists. cbn [fst snd]. rewrite <- !app_assoc. reflexivity.
    + eexists. cbn [fst snd]. reflexivity.
  - intros s s' log Hsame.
    rewrite !(loadConfig_run SIMPLE selectIdentifier safeLoad validateConfig State reducer
                selectConfig authenticateUser g _ Hno).
    cbn [fst snd]. now rewrite Hsame.
Qed.

(** X21. Outside the injected path nothing is published unvalidated: a
    configuration that the block of [loadConfig] produces is
    [applyDefaults] of a merged document that [validateConfig] accepted,
    the merged document being the preloaded configuration merged with the
    loaded document (the empty object when [load_config_file] is false).
    The validator sees the document before the defaults are applied. *)
Theorem buildConfig_validated (g : page) (pre : option obj) (config : obj) :
  buildConfig SIMPLE selectIdentifier safeLoad validateConfig g pre = Ok config ->
  exists loaded merged,
    (if skipsConfigFile pre then Ok (VObj [])
     else getConfig safeLoad g (getConfigUrl g) (isPreloaded pre)) = Ok loaded
    /\ mergePreloadedConfig pre loaded = Ok (VObj merged)
    /\ validateConfig (VObj merged) = Ok tt
    /\ applyDefaults SIMPLE selectIdentifier merged = Ok config.
Proof.
  unfold buildConfig. intros H.
  bind_ok H. rename r into loaded. bind_ok H. rename r into merged.
  bind_ok H. bind_ok H. destruct r0.
  destruct merged as [| | b | n | s | l | m]; try discriminate.
  simpl in E1. injection E1 as <-.
  exists loaded, m. repeat split; assumption.
Qed.

(** X22. A preloaded configuration of at most one key does not count as
    one: when the fetch fails, the load fails with the load error,
    although the state held a configuration. *)
Theorem loadConfig_small_preloaded (g : page) (st : store State) (pre : obj) :
  truthy (CMS_CONFIG g) = false ->
  selectConfig (reducer (fst st) CONFIG_REQUEST) = Some pre ->
  length pre <= 1 ->
  skipsConfigFile (Some pre) = false ->
  fetchFailed (fetch g (getConfigUrl g)) = true ->
  exists message,
    loadConfig SIMPLE selectIdentifier safeLoad validateConfig State reducer
               selectConfig authenticateUser g st
    = ((reducer (reducer (fst st) CONFIG_REQUEST) (CONFIG_FAILURE (LoadError message)),
        snd st ++ [CONFIG_REQUEST; CONFIG_FAILURE (LoadError message)]),
       Throw (LoadError message)).
Proof.
  intros Hno Hpre Hsize Hskip Hfetch.
  assert (Hsmall : isPreloaded (Some pre) = false).
  { simpl. apply Nat.ltb_ge. exact Hsize. }
  assert (Hget : exists message,
             getConfig safeLoad g (getConfigUrl g) (isPreloaded (Some pre))
             = Throw (LoadError message)).
  { rewrite Hsmall. unfold getConfig.
    destruct (fetch g (getConfigUrl g)) as [print|status ct body]; simpl in Hfetch.
    - now eexists.
    - rewrite Hfetch. now eexists. }
  destruct Hget as [message Hget]. exists message.
  apply loadConfig_run_throw; [assumption|].
  rewrite Hpre. unfold buildConfig. rewrite Hskip, Hget. reflexivity.
Qed.

End FurtherLoad.

(* ================================================================= *)
(** ** The further properties on sample inputs *)

Section FurtherSamples.
Import Js Immutable.

Lemma applyDefaults_publish_mode_witness :
  exists out,
    applyDefaults "simple" slugIdentifier
      [("publish_mode", VStr ""); ("collections", VList [])] = Ok out
    /\ lookup "publish_mode" out = Some (VStr "").
Proof.
  eexists. split; [reflexivity|].
  exact (applyDefaults_publish_mode "simple" slugIdentifier
           [("publish_mode", VStr ""); ("collections", VList [])] _ eq_refl eq_refl).
Defined.

Lemma applyDefaults_display_url_witness :
  exists out,
    applyDefaults "simple" slugIdentifier
      [("site_url", VStr "https://example.org"); ("collections", VList [])] = Ok out
    /\ lookup "display_url" out = Some (VStr "https://example.org").
Proof.
  eexists. split; [reflexivity|].
  exact (applyDefaults_display_url "simple" slugIdentifier
           [("site_url", VStr "https://example.org"); ("collections", VList [])]
           _ eq_refl eq_refl).
Defined.

Lemma applyDefaults_keeps_other_keys_witness :
  exists out,
    applyDefaults "simple" slugIdentifier
      [("backend", VObj [("name", VStr "github")]); ("collections", VList [])] = Ok out
    /\ lookup "backend" out = Some (VObj [("name", VStr "github")]).
Proof.
  eexists. split; [reflexivity|].
  apply (applyDefaults_keeps_other_keys "simple" slugIdentifier
           [("backend", VObj [("name", VStr "github")]); ("collections", VList [])]
           _ "backend" eq_refl eq_refl).
  unfold defaultedKeys. simpl. intros [H|[H|[H|[H|[H|[]]]]]]; discriminate H.
Defined.

Lemma applyDefaults_output_defaulted_witness :
  exists out,
    applyDefaults "simple" slugIdentifier
      [("slug", VObj [("clean_accents", VBool true)]); ("collections", VList [])] = Ok out
    /\ truthy (get "public_folder" out) = true.
Proof.
  eexists. split; [reflexivity|].
  exact (proj1 (applyDefaults_output_defaulted "simple" slugIdentifier
                  [("slug", VObj [("clean_accents", VBool true)]);
                   ("collections", VList [])] _ eq_refl)).
Defined.

Lemma applyDefaults_without_collections_throws_witness :
  exists what,
    applyDefaults "simple" slugIdentifier [("media_folder", VStr "uploads")]
    = Throw (TypeError what).
Proof.
  exact (applyDefaults_without_collections_throws "simple" slugIdentifier
           [("media_folder", VStr "uploads")] eq_refl eq_refl I eq_refl).
Defined.

Lemma applyDefaults_drops_empty_collection_witness :
  exists out cs',
    applyDefaults "simple" slugIdentifier
      [("collections", VList [VObj [("name", VStr "posts"); ("folder", VStr "")]])] = Ok out
    /\ get "collections" out = VList cs'
    /\ nth_error cs' 0 = Some VUndef.
Proof.
  destruct (applyDefaults_drops_empty_collection "simple" slugIdentifier
              [("collections", VList [VObj [("name", VStr "posts"); ("folder", VStr "")]])]
              _ _ 0 [("name", VStr "posts"); ("folder", VStr "")]
              eq_refl eq_refl eq_refl eq_refl eq_refl eq_refl)
    as (cs' & Hout & _ & Hnth).
  eexists. exists cs'. split; [reflexivity|]. split; assumption.
Defined.

Lemma collectionDefaults_folder_frame_witness :
  exists c',
    collectionDefaults slugIdentifier VUndef
      (VObj [("folder", VStr "/posts"); ("path", VStr "{{slug}}/index");
             ("fields", VList [VObj [("name", VStr "title"); ("translate", VBool true)]])])
    = Ok (VObj c')
    /\ lookup "media_folder" c' = Some (VStr "")
    /\ lookup "fields" c'
       = Some (VList [VObj [("name", VStr "title"); ("translate", VBool true)]]).
Proof.
  destruct (collectionDefaults_folder_frame slugIdentifier VUndef
              [("folder", VStr "/posts"); ("path", VStr "{{slug}}/index");
               ("fields", VList [VObj [("name", VStr "title"); ("translate", VBool true)]])]
              _ eq_refl eq_refl)
    as (c' & Hr & Hmedia & Hfields & _).
  exists c'. split; [now rewrite <- Hr|]. split; [exact Hmedia|].
  now apply Hfields.
Defined.

Lemma addLanguageFields_length_witness :
  exists r,
    addLanguageFields
      (VList [VObj [("name", VStr "title"); ("translate", VBool true)]; VStr "stray"])
      (VList [VStr "en"; VStr "fr"; VStr "de"]) None = Ok r
    /\ length r = 2.
Proof.
  eexists. split; [reflexivity|].
  exact (addLanguageFields_length
           [VObj [("name", VStr "title"); ("translate", VBool true)]; VStr "stray"]
           (VList [VStr "en"; VStr "fr"; VStr "de"]) None _ eq_refl).
Defined.

Lemma addLanguageFields_passes_through_witness :
  addLanguageFields
    (VList [VObj [("name", VStr "title")];
            VObj [("name", VStr "body"); ("translate", VBool true)]])
    VUndef (Some "title")
  = Ok [VObj [("name", VStr "title")];
        VObj [("name", VStr "body"); ("translate", VBool true)]].
Proof.
  exact (addLanguageFields_passes_through
           [VObj [("name", VStr "title")];
            VObj [("name", VStr "body"); ("translate", VBool true)]]
           VUndef (Some "title") eq_refl).
Defined.

Lemma addLanguageFields_null_item_witness :
  In VNull [VObj [("name", VStr "title")]; VNull]
  /\ match addLanguageFields (VList [VObj [("name", VStr "title")]; VNull])
                             (VList [VStr "en"]) None with
     | Ok _ => False
     | _ => True
     end.
Proof.
  assert (Hin : In VNull [VObj [("name", VStr "title")]; VNull])
    by (simpl; right; left; reflexivity).
  split; [exact Hin|].
  pose proof (addLanguageFields_null_item [VObj [("name", VStr "title")]; VNull]
                (VList [VStr "en"]) None (or_introl Hin)) as H.
  destruct (addLanguageFields _ _ _) as [r| |]; [exact (H r eq_refl) | exact I | exact I].
Defined.

(** An authentication that throws before it dispatches anything. *)
Lemma loadConfig_authentication_failure_witness :
  let pre := [("load_config_file", VBool false); ("collections", VList [])] in
  let failingAuth := fun _ : option obj =>
                       (@nil action, @Throw unit (External "Backend not found")) in
  exists config,
    loadConfig "simple" slugIdentifier sampleLoad acceptAll (option obj) slotReducer
               slotConfig failingAuth (page404 None) (Some pre, [])
    = ((Some config,
        [CONFIG_REQUEST; CONFIG_SUCCESS (VObj config);
         CONFIG_FAILURE (External "Backend not found")]),
       Throw (External "Backend not found")).
Proof.
  intros pre failingAuth. eexists.
  exact (loadConfig_authentication_failure "simple" slugIdentifier sampleLoad acceptAll
           (option obj) slotReducer slotConfig failingAuth (page404 None) (Some pre, [])
           _ (External "Backend not found") eq_refl eq_refl eq_refl).
Defined.

Lemma loadConfig_outcome_reported_witness :
  exists added,
    [CONFIG_REQUEST; CONFIG_FAILURE (LoadError "Failed to load config.yml (404)")]
    = [] ++ added ++ [CONFIG_FAILURE (LoadError "Failed to load config.yml (404)")].
Proof.
  exact (proj1 (loadConfig_outcome_reported "simple" slugIdentifier sampleLoad acceptAll
                  (option obj) slotReducer slotConfig sampleAuth
                  (page404 None) (None, []) _ _ eq_refl) _ eq_refl).
Defined.

Lemma loadConfig_reads_state_after_request_witness :
  exists rest,
    snd (fst (loadConfig "simple" slugIdentifier sampleLoad acceptAll (option obj)
                         slotReducer slotConfig sampleAuth (page404 None) (None, [])))
    = [] ++ CONFIG_REQUEST :: rest.
Proof.
  exact (proj1 (loadConfig_reads_state_after_request "simple" slugIdentifier sampleLoad
                  acceptAll (option obj) slotReducer slotConfig sampleAuth
                  (page404 None) eq_refl) (None, [])).
Defined.

Lemma buildConfig_validated_witness :
  let pre := [("load_config_file", VBool false); ("collections", VList [])] in
  exists config loaded merged,
    buildConfig "simple" slugIdentifier sampleLoad acceptAll (page404 None) (Some pre)
    = Ok config
    /\ mergePreloadedConfig (Some pre) loaded = Ok (VObj merged)
    /\ acceptAll (VObj merged) = Ok tt
    /\ applyDefaults "simple" slugIdentifier merged = Ok config.
Proof.
  intros pre.
  destruct (buildConfig_validated "simple" slugIdentifier sampleLoad acceptAll
              (page404 None) (Some pre) _ eq_refl)
    as (loaded & merged & _ & Hmerge & Hvalid & Hdefaults).
  eexists. exists loaded, merged. split; [reflexivity|].
  split; [exact Hmerge|]. split; [exact Hvalid | exact Hdefaults].
Defined.

Lemma loadConfig_small_preloaded_witness :
  exists message,
    loadConfig "simple" slugIdentifier sampleLoad acceptAll (option obj) slotReducer
               slotConfig sampleAuth (page404 None)
               (Some [("isFetching", VBool true)], [])
    = ((Some [("isFetching", VBool true)],
        [CONFIG_REQUEST; CONFIG_FAILURE (LoadError message)]),
       Throw (LoadError message)).
Proof.
  refine (loadConfig_small_preloaded "simple" slugIdentifier sampleLoad acceptAll
            (option obj) slotReducer slotConfig sampleAuth (page404 None)
            (Some [("isFetching", VBool true)], []) [("isFetching", VBool true)]
            eq_refl eq_refl _ eq_refl eq_refl).
  simpl. lia.
Defined.

Lemma addLanguageFields_idempotent_witness :
  exists r,
    addLanguageFields
      (VList (map VObj [[("name", VStr "title"); ("translate", VBool true)]]))
      (VList (map VStr ["en"; "fr"])) (Some "slug") = Ok r
    /\ addLanguageFields (VList r) (VList [VStr "de"]) (Some "slug") = Ok r.
Proof.
  eexists. split; [reflexivity|].
  exact (addLanguageFields_idempotent ["en"; "fr"] (Some "slug")
           [[("name", VStr "title"); ("translate", VBool true)]] _ (VList [VStr "de"])
           eq_refl eq_refl).
Defined.

End FurtherSamples.
